(** * Payment gateway orchestration (saleor/payment/gateway.py)

    A shallow embedding of the orchestrators [process_payment], [authorize],
    [capture], [refund], [void] and [confirm], of the decorators that wrap
    them and of the helpers of the same module.  Stateful code is written in
    a state-and-exception monad over a [World]: the database rows, the state
    of the external gateway and a trace of the observable effects. *)

From Stdlib Require Import List String Bool Arith Lia QArith Lqa.
Import ListNotations.
Local Open Scope string_scope.
Local Open Scope nat_scope.
Local Open Scope list_scope.

(** ** Data model *)

(** Decimal amounts are exact rationals. *)
Definition Decimal := Q.

Inductive TransactionKind : Type :=
| AUTH | CAPTURE | VOID | REFUND | CONFIRM | EXTERNAL | ACTION_TO_CONFIRM | CANCEL.

Definition kind_eqb (a b : TransactionKind) : bool :=
  match a, b with
  | AUTH, AUTH | CAPTURE, CAPTURE | VOID, VOID | REFUND, REFUND
  | CONFIRM, CONFIRM | EXTERNAL, EXTERNAL
  | ACTION_TO_CONFIRM, ACTION_TO_CONFIRM | CANCEL, CANCEL => true
  | _, _ => false
  end.

(** A row of the Payment table.  [pk] is the primary key ([payment.id]). *)
Record Payment : Type := mkPayment {
  pk : nat;
  gateway : string;
  is_active : bool;
  captured_amount : Decimal;
  total : Decimal;
  charge_status : string;
  payment_method_details : string
}.

(** A row of the Transaction table; [payment_id] is the foreign key. *)
Record Transaction : Type := mkTransaction {
  txn_pk : nat;
  payment_id : nat;
  kind : TransactionKind;
  token : string;
  is_success : bool;
  action_required : bool;
  amount : Decimal;
  error : option string;
  gateway_response : string
}.

(** The payload handed to a gateway function. *)
Record PaymentData : Type := mkPaymentData {
  pd_payment_id : nat;
  pd_token : string;
  pd_amount : Decimal;
  pd_reuse_source : bool;
  pd_data : option string
}.

(** What a gateway function returns: success flag, correlating token,
    action-required flag, optional payment-method metadata, raw payload. *)
Record GatewayResponse : Type := mkGatewayResponse {
  gr_is_success : bool;
  gr_transaction_id : string;
  gr_action_required : bool;
  gr_payment_method_info : option string;
  gr_raw_response : string
}.

(** The exceptions the module distinguishes: [PaymentError] and
    [GatewayError] are the two classes it raises or catches, anything else
    passes through untouched. *)
Inductive Exn : Type :=
| PaymentError (msg : string)
| GatewayError (msg : string)
| OtherException (name : string).

Inductive Result (A : Type) : Type :=
| Ok (a : A)
| Raise (e : Exn).
Arguments Ok {A} a.
Arguments Raise {A} e.

(** The six functions of the plugin manager that the orchestrators call. *)
Inductive GatewayOp : Type :=
| ProcessPayment | AuthorizePayment | CapturePayment
| RefundPayment | VoidPayment | ConfirmPayment.

(** Observable effects, in the order in which they happen. *)
Inductive Event : Type :=
| EvSelectForUpdate (payment_pk : nat)
| EvAtomicExit (committed : bool)
| EvGatewayCall (op : GatewayOp) (gw_name : string) (data : PaymentData)
| EvPostprocess (txn : Transaction)
| EvLog (msg : string).

Definition is_gateway_call (e : Event) : bool :=
  match e with EvGatewayCall _ _ _ => true | _ => false end.

Definition is_postprocess (e : Event) : bool :=
  match e with EvPostprocess _ => true | _ => false end.

Definition is_select_for_update (e : Event) : bool :=
  match e with EvSelectForUpdate _ => true | _ => false end.

Definition gateway_calls (tr : list Event) : list Event := filter is_gateway_call tr.
Definition postprocess_runs (tr : list Event) : list Event := filter is_postprocess tr.
Definition lock_acquisitions (tr : list Event) : list Event := filter is_select_for_update tr.

(** [queryset.last()]: the most recent row, or [None]. *)
Fixpoint last_opt {A : Type} (l : list A) : option A :=
  match l with
  | [] => None
  | [x] => Some x
  | _ :: rest => last_opt rest
  end.

Definition ERROR_MSG : string := "Oops! Something went wrong.".
Definition GENERIC_TRANSACTION_ERROR : string := "Transaction was unsuccessful.".
Definition INACTIVE_MSG : string := "This payment is no longer active.".

Section Gateway.

(** The state of the external gateway: its answers may change from one call
    to the next. *)
Context {G : Type}.

Inductive GatewayOutcome : Type :=
| Returns (r : GatewayResponse)
| Throws (e : Exn).

Definition GatewayFn : Type := string -> PaymentData -> G -> GatewayOutcome * G.

Record PluginsManager : Type := mkPluginsManager {
  pm_process_payment : GatewayFn;
  pm_authorize_payment : GatewayFn;
  pm_capture_payment : GatewayFn;
  pm_refund_payment : GatewayFn;
  pm_void_payment : GatewayFn;
  pm_confirm_payment : GatewayFn
}.

(** Collaborators that live outside gateway.py (models.py, utils.py, the
    package constants and the plugin registry); the orchestrators are
    verified for every choice of them. *)
Class Collaborators : Type := mkCollaborators {
  kind_value : TransactionKind -> string;
  get_plugins_manager : PluginsManager;
  validate_gateway_response : GatewayResponse -> Result unit;
  clean_authorize : Payment -> Result unit;
  clean_capture : Payment -> Decimal -> Result unit;
  get_charge_amount : Payment -> Decimal;
  can_refund : Payment -> bool;
  can_void : Payment -> bool;
  is_manual : Payment -> bool;
  gateway_postprocess : Transaction -> Payment -> Payment;
  update_payment_method_details : Payment -> GatewayResponse -> Payment
}.

Context {env : Collaborators}.

(** ** The world and the monad *)

Record World : Type := mkWorld {
  payments : list Payment;
  transactions : list Transaction;
  gw : G;
  trace : list Event
}.

Definition M (A : Type) : Type := World -> Result A * World.

Definition ret {A} (a : A) : M A := fun w => (Ok a, w).
Definition raise {A} (e : Exn) : M A := fun w => (Raise e, w).
Definition bind {A B} (m : M A) (k : A -> M B) : M B :=
  fun w => match m w with
           | (Ok a, w') => k a w'
           | (Raise e, w') => (Raise e, w')
           end.
Definition lift {A} (r : Result A) : M A := fun w => (r, w).

Notation "x <- m ;; k" := (bind m (fun x => k))
  (at level 61, m at next level, right associativity).
Notation "m ;;; k" := (bind m (fun _ => k))
  (at level 61, right associativity).

Definition log (e : Event) (w : World) : World :=
  mkWorld (payments w) (transactions w) (gw w) (trace w ++ [e]).

Definition emit (e : Event) : M unit := fun w => (Ok tt, log e w).

(** [Payment.objects.get(id=...)]. *)
Definition find_payment (key : nat) (w : World) : option Payment :=
  find (fun p => pk p =? key) (payments w).

(** [payment.save()]: the row with the payment's key is overwritten. *)
Definition save_payment (p : Payment) (w : World) : World :=
  mkWorld (map (fun row => if pk row =? pk p then p else row) (payments w))
          (transactions w) (gw w) (trace w).

(** [obj.transactions.filter(kind=kind, is_success=True).last()]. *)
Definition last_successful (key : nat) (k : TransactionKind) (w : World)
  : option Transaction :=
  last_opt (filter (fun t => (payment_id t =? key) && kind_eqb (kind t) k
                             && is_success t) (transactions w)).

(** What an exception leaving [transaction.atomic()] does: the rows go back
    to what they were on entry; the gateway and the trace do not. *)
Definition rollback (entry w : World) : World :=
  mkWorld (payments entry) (transactions entry) (gw w) (trace w).

(** ** Collaborators seen from gateway.py *)

(** A method of the plugin manager: the call is observable, the gateway
    moves to its next state, and the outcome is a response or an exception. *)
Definition call_gateway (op : GatewayOp) (fn : GatewayFn)
  : string -> PaymentData -> M GatewayResponse :=
  fun gateway_name data w =>
    let (outcome, g') := fn gateway_name data (gw w) in
    let w' := mkWorld (payments w) (transactions w) g'
                      (trace w ++ [EvGatewayCall op gateway_name data]) in
    match outcome with
    | Returns r => (Ok r, w')
    | Throws e => (Raise e, w')
    end.

Definition manager_process_payment (pm : PluginsManager) :=
  call_gateway ProcessPayment (pm_process_payment pm).
Definition manager_authorize_payment (pm : PluginsManager) :=
  call_gateway AuthorizePayment (pm_authorize_payment pm).
Definition manager_capture_payment (pm : PluginsManager) :=
  call_gateway CapturePayment (pm_capture_payment pm).
Definition manager_refund_payment (pm : PluginsManager) :=
  call_gateway RefundPayment (pm_refund_payment pm).
Definition manager_void_payment (pm : PluginsManager) :=
  call_gateway VoidPayment (pm_void_payment pm).
Definition manager_confirm_payment (pm : PluginsManager) :=
  call_gateway ConfirmPayment (pm_confirm_payment pm).

(** [gateway_postprocess(txn, txn.payment)]: the hook runs on the payment
    row the transaction points to; the run is recorded in the trace. *)
Definition postprocessed (txn : Transaction) (w : World) : World :=
  mkWorld (map (fun row => if pk row =? payment_id txn
                           then gateway_postprocess txn row else row)
               (payments w))
          (transactions w) (gw w) (trace w ++ [EvPostprocess txn]).

Definition run_gateway_postprocess (txn : Transaction) : M unit :=
  fun w => (Ok tt, postprocessed txn w).

(** [update_payment_method_details(payment, response)]: the payment object
    is changed and saved; later code sees the changed object. *)
Definition run_update_payment_method_details
  (payment : Payment) (response : GatewayResponse) : M Payment :=
  fun w =>
    let payment' := update_payment_method_details payment response in
    (Ok payment', save_payment payment' w).

(** Modelled from the spec: [create_payment_information] of
    saleor/payment/utils.py, which is not under src/.  It builds the payload
    sent to the gateway: the payment, the token it is given, the amount
    (the payment's total when none is given) and the caller's options. *)
Definition create_payment_information
  (payment : Payment) (payment_token : string) (amount : option Decimal)
  (store_source : bool) (additional_data : option string) : PaymentData :=
  {| pd_payment_id := pk payment;
     pd_token := payment_token;
     pd_amount := match amount with Some a => a | None => total payment end;
     pd_reuse_source := store_source;
     pd_data := additional_data |}.

Definition is_none {A} (o : option A) : bool :=
  match o with None => true | Some _ => false end.

(** The correlating token of an attempt: the response's identifier, or the
    request payload's when there is no response. *)
Definition correlating_token
  (payment_information : PaymentData) (response : option GatewayResponse) : string :=
  match response with
  | Some r => gr_transaction_id r
  | None => pd_token payment_information
  end.

(** Modelled from the spec: [create_transaction] of saleor/payment/utils.py,
    which is not under src/.  It appends one Transaction row: success is
    "no error and the response indicates success" (the caller's [is_success]
    when there is no response), action-required is the caller's flag, the
    stored gateway response is the raw response or the error text, and the
    token is the correlating token. *)
Definition create_transaction
  (payment : Payment) (k : TransactionKind) (payment_information : PaymentData)
  (action_required_flag : bool) (response : option GatewayResponse)
  (error_msg : option string) (is_success_flag : bool) : M Transaction :=
  fun w =>
    let txn :=
      {| txn_pk := S (List.length (transactions w));
         payment_id := pk payment;
         kind := k;
         token := correlating_token payment_information response;
         is_success := match response with
                       | Some r => is_none error_msg && gr_is_success r
                       | None => is_success_flag
                       end;
         action_required := action_required_flag;
         amount := pd_amount payment_information;
         error := error_msg;
         gateway_response := match response, error_msg with
                             | Some r, _ => gr_raw_response r
                             | None, Some e => e
                             | None, None => ""
                             end |} in
    (Ok txn, mkWorld (payments w) (transactions w ++ [txn]) (gw w) (trace w)).

(** The rows an attempt on [(payment, kind, token)] would duplicate. *)
Definition same_attempt (key : nat) (k : TransactionKind) (tok : string)
  (t : Transaction) : bool :=
  (payment_id t =? key) && kind_eqb (kind t) k && String.eqb (token t) tok
  && is_success t.

(** Modelled from the spec:
    [get_already_processed_transaction_or_create_new_transaction] of
    saleor/payment/utils.py, which is not under src/.  When a successful
    Transaction of the same payment, kind and correlating token exists it is
    returned unchanged; otherwise a new one is created. *)
Definition get_already_processed_transaction_or_create_new_transaction
  (payment : Payment) (k : TransactionKind) (payment_information : PaymentData)
  (action_required_flag : bool) (response : option GatewayResponse)
  (error_msg : option string) : M Transaction :=
  fun w =>
    match last_opt (filter (same_attempt (pk payment) k
                              (correlating_token payment_information response))
                           (transactions w)) with
    | Some existing => (Ok existing, w)
    | None => create_transaction payment k payment_information
                action_required_flag response error_msg false w
    end.

(** ** The decorators *)

(** [result.error or GENERIC_TRANSACTION_ERROR]. *)
Definition error_or_generic (txn : Transaction) : string :=
  match error txn with
  | None => GENERIC_TRANSACTION_ERROR
  | Some EmptyString => GENERIC_TRANSACTION_ERROR
  | Some msg => msg
  end.

Definition raise_payment_error (fn : Payment -> M Transaction)
  : Payment -> M Transaction :=
  fun payment =>
    result <- fn payment ;;
    if negb (is_success result)
    then raise (PaymentError (error_or_generic result))
    else ret result.

Definition payment_postprocess (fn : Payment -> M Transaction)
  : Payment -> M Transaction :=
  fun payment =>
    txn <- fn payment ;;
    run_gateway_postprocess txn ;;;
    ret txn.

Definition require_active_payment (fn : Payment -> M Transaction)
  : Payment -> M Transaction :=
  fun payment =>
    if negb (is_active payment)
    then raise (PaymentError INACTIVE_MSG)
    else fn payment.

(** [with transaction.atomic(): ...]. *)
Definition atomic {A} (m : M A) : M A :=
  fun w =>
    match m w with
    | (Ok a, w') => (Ok a, log (EvAtomicExit true) w')
    | (Raise e, w') => (Raise e, log (EvAtomicExit false) (rollback w w'))
    end.

(** [Payment.objects.select_for_update().get(id=key)]. *)
Definition select_for_update_get (key : nat) : M Payment :=
  fun w =>
    let w1 := log (EvSelectForUpdate key) w in
    match find_payment key w1 with
    | Some row => (Ok row, w1)
    | None => (Raise (OtherException "Payment.DoesNotExist"), w1)
    end.

Definition with_locked_payment (fn : Payment -> M Transaction)
  : Payment -> M Transaction :=
  fun payment =>
    atomic (payment <- select_for_update_get (pk payment) ;;
            fn payment).

(** ** Helpers of the module *)

Definition _fetch_gateway_response
  (fn : string -> PaymentData -> M GatewayResponse)
  (gateway_name : string) (data : PaymentData)
  : M (option GatewayResponse * option string) :=
  fun w =>
    match (response <- fn gateway_name data ;;
           lift (validate_gateway_response response) ;;;
           ret response) w with
    | (Ok response, w') => (Ok (Some response, None), w')
    | (Raise (GatewayError _), w') =>
        (Ok (None, Some ERROR_MSG),
         log (EvLog "Gateway response validation failed!") w')
    | (Raise (PaymentError _), w') =>
        (Ok (None, Some ERROR_MSG),
         log (EvLog "Error encountered while executing payment gateway.") w')
    | (Raise e, w') => (Raise e, w')
    end.

Definition _get_past_transaction_token (payment : Payment) (k : TransactionKind)
  : M string :=
  fun w =>
    match last_successful (pk payment) k w with
    | None =>
        raise (PaymentError
                 ("Cannot find successful " ++ kind_value k ++ " transaction.")%string) w
    | Some txn => ret (token txn) w
    end.

Definition _validate_refund_amount (payment : Payment) (amount : Decimal) : M unit :=
  if Qle_bool amount 0
  then raise (PaymentError "Amount should be a positive number.")
  else if negb (Qle_bool amount (captured_amount payment))
       then raise (PaymentError "Cannot refund more than captured.")
       else ret tt.

(** ** The orchestrators

    Each orchestrator is its undecorated body, named [..._body], under the
    stack of decorators the source puts on it (the topmost decorator is the
    outermost function). *)

(** [if response and response.payment_method_info: update...(payment, response)]. *)
Definition update_if_method_info (payment : Payment)
  (response : option GatewayResponse) : M Payment :=
  match response with
  | Some r =>
      match gr_payment_method_info r with
      | Some _ => run_update_payment_method_details payment r
      | None => ret payment
      end
  | None => ret payment
  end.

(** [response is not None and response.action_required]. *)
Definition response_action_required (response : option GatewayResponse) : bool :=
  match response with
  | Some r => gr_action_required r
  | None => false
  end.

Definition process_payment_body (payment : Payment) (token_arg : string)
  (store_source : bool) (additional_data : option string)
  (plugin_manager : option PluginsManager) : M Transaction :=
  let plugin_manager := match plugin_manager with
                        | Some pm => pm
                        | None => get_plugins_manager
                        end in
  let payment_data :=
    create_payment_information payment token_arg None store_source additional_data in
  ra <- _fetch_gateway_response (manager_process_payment plugin_manager)
          (gateway payment) payment_data ;;
  let '(response, error_msg) := ra in
  let action_required_flag := response_action_required response in
  payment <- update_if_method_info payment response ;;
  get_already_processed_transaction_or_create_new_transaction
    payment CAPTURE payment_data action_required_flag response error_msg.

Definition process_payment (payment : Payment) (token_arg : string)
  (store_source : bool) (additional_data : option string)
  (plugin_manager : option PluginsManager) : M Transaction :=
  raise_payment_error
    (require_active_payment
       (with_locked_payment
          (payment_postprocess
             (fun payment => process_payment_body payment token_arg store_source
                               additional_data plugin_manager))))
    payment.

Definition authorize_body (payment : Payment) (token_arg : string)
  (store_source : bool) : M Transaction :=
  let plugin_manager := get_plugins_manager in
  lift (clean_authorize payment) ;;;
  let payment_data :=
    create_payment_information payment token_arg None store_source None in
  ra <- _fetch_gateway_response (manager_authorize_payment plugin_manager)
          (gateway payment) payment_data ;;
  let '(response, error_msg) := ra in
  payment <- update_if_method_info payment response ;;
  get_already_processed_transaction_or_create_new_transaction
    payment AUTH payment_data false response error_msg.

Definition authorize (payment : Payment) (token_arg : string)
  (store_source : bool) : M Transaction :=
  raise_payment_error
    (require_active_payment
       (with_locked_payment
          (payment_postprocess
             (fun payment => authorize_body payment token_arg store_source))))
    payment.

Definition capture_body (payment : Payment) (amount_arg : option Decimal)
  (store_source : bool) : M Transaction :=
  let plugin_manager := get_plugins_manager in
  let amount_arg := match amount_arg with
                    | None => get_charge_amount payment
                    | Some a => a
                    end in
  lift (clean_capture payment amount_arg) ;;;
  tok <- _get_past_transaction_token payment AUTH ;;
  let payment_data :=
    create_payment_information payment tok (Some amount_arg) store_source None in
  ra <- _fetch_gateway_response (manager_capture_payment plugin_manager)
          (gateway payment) payment_data ;;
  let '(response, error_msg) := ra in
  payment <- update_if_method_info payment response ;;
  get_already_processed_transaction_or_create_new_transaction
    payment CAPTURE payment_data false response error_msg.

Definition capture (payment : Payment) (amount_arg : option Decimal)
  (store_source : bool) : M Transaction :=
  payment_postprocess
    (raise_payment_error
       (require_active_payment
          (with_locked_payment
             (payment_postprocess
                (fun payment => capture_body payment amount_arg store_source)))))
    payment.

Definition refund_body (payment : Payment) (amount_arg : option Decimal)
  : M Transaction :=
  let plugin_manager := get_plugins_manager in
  let amount_arg := match amount_arg with
                    | None => captured_amount payment
                    | Some a => a
                    end in
  _validate_refund_amount payment amount_arg ;;;
  if negb (can_refund payment)
  then raise (PaymentError "This payment cannot be refunded.")
  else
    let k := if is_manual payment then EXTERNAL else CAPTURE in
    tok <- _get_past_transaction_token payment k ;;
    let payment_data :=
      create_payment_information payment tok (Some amount_arg) false None in
    if is_manual payment
    then create_transaction payment REFUND payment_data false None None true
    else
      ra <- _fetch_gateway_response (manager_refund_payment plugin_manager)
              (gateway payment) payment_data ;;
      let '(response, error_msg) := ra in
      get_already_processed_transaction_or_create_new_transaction
        payment REFUND payment_data false response error_msg.

Definition refund (payment : Payment) (amount_arg : option Decimal)
  : M Transaction :=
  raise_payment_error
    (require_active_payment
       (with_locked_payment
          (payment_postprocess
             (fun payment => refund_body payment amount_arg))))
    payment.

Definition void_body (payment : Payment) : M Transaction :=
  let plugin_manager := get_plugins_manager in
  tok <- _get_past_transaction_token payment AUTH ;;
  let payment_data := create_payment_information payment tok None false None in
  ra <- _fetch_gateway_response (manager_void_payment plugin_manager)
          (gateway payment) payment_data ;;
  let '(response, error_msg) := ra in
  get_already_processed_transaction_or_create_new_transaction
    payment VOID payment_data false response error_msg.

Definition void (payment : Payment) : M Transaction :=
  raise_payment_error
    (require_active_payment
       (with_locked_payment
          (payment_postprocess void_body)))
    payment.

Definition confirm_body (payment : Payment) (additional_data : option string)
  : M Transaction :=
  let plugin_manager := get_plugins_manager in
  fun w =>
    let txn := last_successful (pk payment) ACTION_TO_CONFIRM w in
    let tok := match txn with Some t => token t | None => "" end in
    let payment_data :=
      create_payment_information payment tok None false additional_data in
    (ra <- _fetch_gateway_response (manager_confirm_payment plugin_manager)
             (gateway payment) payment_data ;;
     let '(response, error_msg) := ra in
     let action_required_flag := response_action_required response in
     payment <- update_if_method_info payment response ;;
     get_already_processed_transaction_or_create_new_transaction
       payment CONFIRM payment_data action_required_flag response error_msg) w.

Definition confirm (payment : Payment) (additional_data : option string)
  : M Transaction :=
  raise_payment_error
    (require_active_payment
       (with_locked_payment
          (payment_postprocess
             (fun payment => confirm_body payment additional_data))))
    payment.

Definition payment_refund_or_void (payment : option Payment) : M unit :=
  match payment with
  | None => ret tt
  | Some payment =>
      if can_refund payment
      then refund payment None ;;; ret tt
      else if can_void payment
           then void payment ;;; ret tt
           else ret tt
  end.

(** ** Calls

    One constructor per orchestrator with its arguments, so that a statement
    can range over "every orchestrator call". *)
Inductive Call : Type :=
| CallProcessPayment (payment : Payment) (token_arg : string) (store_source : bool)
    (additional_data : option string) (plugin_manager : option PluginsManager)
| CallAuthorize (payment : Payment) (token_arg : string) (store_source : bool)
| CallCapture (payment : Payment) (amount_arg : option Decimal) (store_source : bool)
| CallRefund (payment : Payment) (amount_arg : option Decimal)
| CallVoid (payment : Payment)
| CallConfirm (payment : Payment) (additional_data : option string).

Definition run_call (c : Call) : M Transaction :=
  match c with
  | CallProcessPayment p t s a pm => process_payment p t s a pm
  | CallAuthorize p t s => authorize p t s
  | CallCapture p a s => capture p a s
  | CallRefund p a => refund p a
  | CallVoid p => void p
  | CallConfirm p a => confirm p a
  end.

(** The payment object the caller passes in. *)
Definition call_payment (c : Call) : Payment :=
  match c with
  | CallProcessPayment p _ _ _ _ | CallAuthorize p _ _ | CallCapture p _ _
  | CallRefund p _ | CallVoid p | CallConfirm p _ => p
  end.

(** The same call on another payment object. *)
Definition with_payment (c : Call) (p : Payment) : Call :=
  match c with
  | CallProcessPayment _ t s a pm => CallProcessPayment p t s a pm
  | CallAuthorize _ t s => CallAuthorize p t s
  | CallCapture _ a s => CallCapture p a s
  | CallRefund _ a => CallRefund p a
  | CallVoid _ => CallVoid p
  | CallConfirm _ a => CallConfirm p a
  end.

(** The undecorated function a call reaches. *)
Definition call_body (c : Call) : Payment -> M Transaction :=
  match c with
  | CallProcessPayment _ t s a pm => fun p => process_payment_body p t s a pm
  | CallAuthorize _ t s => fun p => authorize_body p t s
  | CallCapture _ a s => fun p => capture_body p a s
  | CallRefund _ a => fun p => refund_body p a
  | CallVoid _ => void_body
  | CallConfirm _ a => fun p => confirm_body p a
  end.

Definition is_capture_call (c : Call) : bool :=
  match c with CallCapture _ _ _ => true | _ => false end.

Definition is_process_call (c : Call) : bool :=
  match c with CallProcessPayment _ _ _ _ _ => true | _ => false end.

End Gateway.

Notation "x <- m ;; k" := (bind m (fun x => k))
  (at level 61, m at next level, right associativity).
Notation "m ;;; k" := (bind m (fun _ => k))
  (at level 61, right associativity).

Arguments World G : clear implicits.
Arguments M G A : clear implicits.
Arguments GatewayFn G : clear implicits.
Arguments PluginsManager G : clear implicits.
Arguments Collaborators G : clear implicits.
Arguments Call G : clear implicits.

(** ** A concrete installation

    One gateway state (a call counter) and one choice of collaborators, used
    to run the orchestrators on concrete inputs.  The gateway named
    ["declined"] answers with an unsuccessful response, the one named
    ["broken"] raises a gateway error, every other one approves and answers
    with the token ["gw-1"]. *)

Definition demo_response (ok : bool) : GatewayResponse :=
  {| gr_is_success := ok;
     gr_transaction_id := "gw-1";
     gr_action_required := false;
     gr_payment_method_info := None;
     gr_raw_response := "{}" |}.

Definition demo_gateway_fn : GatewayFn nat :=
  fun gateway_name _ calls =>
    if String.eqb gateway_name "broken"
    then (Throws (GatewayError "connection reset by peer 10.0.0.7"), S calls)
    else if String.eqb gateway_name "declined"
         then (Returns (demo_response false), S calls)
         else (Returns (demo_response true), S calls).

Definition demo_manager : PluginsManager nat :=
  mkPluginsManager demo_gateway_fn demo_gateway_fn demo_gateway_fn
                   demo_gateway_fn demo_gateway_fn demo_gateway_fn.

Definition demo_kind_value (k : TransactionKind) : string :=
  match k with
  | AUTH => "AUTH" | CAPTURE => "CAPTURE" | VOID => "VOID" | REFUND => "REFUND"
  | CONFIRM => "CONFIRM" | EXTERNAL => "EXTERNAL"
  | ACTION_TO_CONFIRM => "ACTION_TO_CONFIRM" | CANCEL => "CANCEL"
  end.

Definition demo_postprocess (txn : Transaction) (p : Payment) : Payment :=
  if is_success txn
  then match kind txn with
       | CAPTURE | CONFIRM =>
           mkPayment (pk p) (gateway p) (is_active p)
                     (captured_amount p + amount txn)%Q (total p)
                     "charged" (payment_method_details p)
       | REFUND =>
           mkPayment (pk p) (gateway p) (is_active p)
                     (captured_amount p - amount txn)%Q (total p)
                     "refunded" (payment_method_details p)
       | _ => p
       end
  else p.

#[export] Instance demo_env : Collaborators nat :=
  {| kind_value := demo_kind_value;
     get_plugins_manager := demo_manager;
     validate_gateway_response := fun _ => Ok tt;
     clean_authorize := fun _ => Ok tt;
     clean_capture := fun _ _ => Ok tt;
     get_charge_amount := fun p => (total p - captured_amount p)%Q;
     can_refund := fun p => is_active p && negb (Qle_bool (captured_amount p) 0);
     can_void := fun p => is_active p;
     is_manual := fun p => String.eqb (gateway p) "manual";
     gateway_postprocess := demo_postprocess;
     update_payment_method_details := fun p _ => p |}.

Definition demo_payment (key : nat) (gateway_name : string) (active : bool)
  (captured : Decimal) : Payment :=
  mkPayment key gateway_name active captured 100%Q "not-charged" "".

Definition demo_txn (key owner : nat) (k : TransactionKind) (tok : string)
  : Transaction :=
  mkTransaction key owner k tok true false 100%Q None "{}".

Definition demo_world (ps : list Payment) (ts : list Transaction) : World nat :=
  mkWorld ps ts 0 [].

(** Concrete payments and worlds. *)
Definition stripe_payment : Payment := demo_payment 1 "stripe" true 0%Q.
Definition inactive_payment : Payment := demo_payment 1 "stripe" false 0%Q.
Definition declined_payment : Payment := demo_payment 1 "declined" true 0%Q.
Definition broken_payment : Payment := demo_payment 1 "broken" true 0%Q.
Definition charged_payment : Payment := demo_payment 1 "stripe" true 100%Q.
Definition manual_payment : Payment := demo_payment 2 "manual" true 100%Q.

(** A payment that has been authorized with the token ["auth-1"]. *)
Definition authorized_world : World nat :=
  demo_world [stripe_payment] [demo_txn 1 1 AUTH "auth-1"].

(** A manual payment recorded by the EXTERNAL transaction ["ext-1"]. *)
Definition manual_world : World nat :=
  demo_world [manual_payment] [demo_txn 1 2 EXTERNAL "ext-1"].

(** The world after one capture, and after one manual refund. *)
Definition captured_world : World nat :=
  snd (capture stripe_payment None false authorized_world).

Definition refunded_world : World nat :=
  snd (refund manual_payment (Some 10%Q) manual_world).

(** A plugin whose functions fail with an exception of their own. *)
Definition crashing_gateway_fn : GatewayFn nat :=
  fun _ _ calls => (Throws (OtherException "ConnectionError"), S calls).

Definition crashing_manager : PluginsManager nat :=
  mkPluginsManager crashing_gateway_fn crashing_gateway_fn crashing_gateway_fn
                   crashing_gateway_fn crashing_gateway_fn crashing_gateway_fn.

(** ** Statements

    The vocabulary of the properties below. *)
Section Statements.

Context {G : Type} {env : Collaborators G}.

Implicit Types (c : Call G) (w : World G) (txn : Transaction) (p row : Payment).

(** The decorator stack of every orchestrator, laid out as one case
    analysis: the activity check on the caller's object, the locked reload,
    the body, the hook, the commit, and the conversion of an unsuccessful
    result into an exception. *)
Definition unfolded_call c w : Result Transaction * World G :=
  if is_active (call_payment c) then
    let w1 := log (EvSelectForUpdate (pk (call_payment c))) w in
    match find_payment (pk (call_payment c)) w with
    | None =>
        (Raise (OtherException "Payment.DoesNotExist"), log (EvAtomicExit false) w1)
    | Some row =>
        match call_body c row w1 with
        | (Ok txn, w2) =>
            let w3 := log (EvAtomicExit true) (postprocessed txn w2) in
            if is_success txn
            then (Ok txn, if is_capture_call c then postprocessed txn w3 else w3)
            else (Raise (PaymentError (error_or_generic txn)), w3)
        | (Raise e, w2) => (Raise e, log (EvAtomicExit false) (rollback w w2))
        end
    end
  else (Raise (PaymentError INACTIVE_MSG), w).

(** The events an orchestrator body can cause by itself. *)
Definition body_event (e : Event) : bool :=
  match e with
  | EvGatewayCall _ _ _ | EvLog _ => true
  | _ => false
  end.

Definition trace_grows_quietly w w' : Prop :=
  exists l, trace w' = trace w ++ l /\ forallb body_event l = true.

(** A step that leaves the Transaction table alone. *)
Definition quiet_step w w' : Prop :=
  transactions w' = transactions w /\ trace_grows_quietly w w'.

Definition quiet {A : Type} (m : M G A) : Prop :=
  forall w r w', m w = (r, w') -> quiet_step w w'.

(** What a body may do to the Transaction table: return a successful row
    that was already there, or append the row it returns.  When [strict],
    a row is appended only if no successful row of the same payment, kind
    and token existed. *)
Definition commit_outcome (strict : bool) w w' (r : Result Transaction) : Prop :=
  match r with
  | Ok txn =>
      (In txn (transactions w) /\ is_success txn = true
       /\ transactions w' = transactions w)
      \/ (transactions w' = transactions w ++ [txn]
          /\ (strict = true ->
              forall t, In t (transactions w) ->
                same_attempt (payment_id txn) (kind txn) (token txn) t = false))
  | Raise _ => transactions w' = transactions w
  end.

Definition body_spec (strict : bool) (m : M G Transaction) : Prop :=
  forall w r w', m w = (r, w') ->
    trace_grows_quietly w w' /\ commit_outcome strict w w' r.

(** The errors [_validate_refund_amount] raises. *)
Definition InvalidAmountError (e : Exn) : Prop :=
  e = PaymentError "Amount should be a positive number."
  \/ e = PaymentError "Cannot refund more than captured.".

(** [amount] when given, the default otherwise. *)
Definition amount_or (amount_arg : option Decimal) (default : Decimal) : Decimal :=
  match amount_arg with
  | None => default
  | Some a => a
  end.

(** The refund of a payment row that is manual. *)
Definition is_manual_refund_of c row : bool :=
  match c with
  | CallRefund _ _ => is_manual row
  | _ => false
  end.

(** A refund of a payment whose stored row is manual. *)
Definition is_manual_refund c w : bool :=
  match c with
  | CallRefund p _ =>
      match find_payment (pk p) w with
      | Some row => is_manual row
      | None => false
      end
  | _ => false
  end.

(** "If a successful Transaction with that kind and token already exists,
    the call returns the existing Transaction and inserts no new row." *)
Definition reuses_existing_row c w : Prop :=
  forall txn w',
    run_call c w = (Ok txn, w') ->
    (exists old, In old (transactions w)
                 /\ same_attempt (payment_id txn) (kind txn) (token txn) old = true) ->
    In txn (transactions w) /\ transactions w' = transactions w.

(** "The activity verification reads the reloaded-under-lock state rather
    than the caller-supplied snapshot." *)
Definition checks_activity_of_reloaded_row c w : Prop :=
  forall row,
    find_payment (pk (call_payment c)) w = Some row ->
    is_active row = false ->
    fst (run_call c w) = Raise (PaymentError INACTIVE_MSG).

(** "The lock is acquired before the isActive check is evaluated." *)
Definition locks_before_activity_check c w : Prop :=
  is_active (call_payment c) = false ->
  lock_acquisitions (trace (snd (run_call c w)))
  = lock_acquisitions (trace w) ++ [EvSelectForUpdate (pk (call_payment c))].

(** "The hook runs exactly once per committed Transaction, except for
    process, which runs it twice per call." *)
Definition hook_multiplicity_claim c w : Prop :=
  forall txn w',
    run_call c w = (Ok txn, w') ->
    List.length (postprocess_runs (trace w'))
    = List.length (postprocess_runs (trace w))
      + (if is_process_call c then 2 else 1).

(** "Refund with amount = capturedAmount passes the amount validation." *)
Definition full_refund_passes_validation p w : Prop :=
  fst (_validate_refund_amount p (captured_amount p) w) = Ok tt.

(** "Every call either returns a Transaction whose is_success flag is true,
    or raises a PaymentError carrying the transaction's error message (or the
    generic one)": the Transaction is one the table holds after the call. *)
Definition returns_success_or_transaction_error c w : Prop :=
  match run_call c w with
  | (Ok txn, _) => is_success txn = true
  | (Raise e, w') =>
      exists txn, In txn (transactions w')
                  /\ e = PaymentError (error_or_generic txn)
  end.

(** ** Further vocabulary *)

Definition is_atomic_exit (e : Event) : bool :=
  match e with EvAtomicExit _ => true | _ => false end.

Definition is_log (e : Event) : bool :=
  match e with EvLog _ => true | _ => false end.

Definition atomic_exits (tr : list Event) : list Event := filter is_atomic_exit tr.
Definition log_entries (tr : list Event) : list Event := filter is_log tr.

(** The plugin-manager function an orchestrator goes through. *)
Definition gateway_op c : GatewayOp :=
  match c with
  | CallProcessPayment _ _ _ _ _ => ProcessPayment
  | CallAuthorize _ _ _ => AuthorizePayment
  | CallCapture _ _ _ => CapturePayment
  | CallRefund _ _ => RefundPayment
  | CallVoid _ => VoidPayment
  | CallConfirm _ _ => ConfirmPayment
  end.

(** The table with one more row at its end. *)
Definition with_transaction (t : Transaction) w : World G :=
  mkWorld (payments w) (transactions w ++ [t]) (gw w) (trace w).

(** The rows [_get_past_transaction_token] looks at. *)
Definition past_match (key : nat) (k : TransactionKind) (t : Transaction) : bool :=
  (payment_id t =? key) && kind_eqb (kind t) k && is_success t.

(** A computation that does not talk to the gateway. *)
Definition silent {A : Type} (m : M G A) : Prop :=
  forall w r w', m w = (r, w') ->
    gw w' = gw w /\ exists l, trace w' = trace w ++ l /\ gateway_calls l = [].

(** A computation that calls the gateway at most once, through [op], at the
    gateway named [name]. *)
Definition calls_at_most_once (op : GatewayOp) (name : string) {A : Type}
  (m : M G A) : Prop :=
  forall w r w', m w = (r, w') ->
    exists l, trace w' = trace w ++ l
              /\ ((gateway_calls l = [] /\ gw w' = gw w)
                  \/ exists d, gateway_calls l = [EvGatewayCall op name d]).

(** A computation that leaves the Payment rows alone. *)
Definition keeps_payments {A : Type} (m : M G A) : Prop :=
  forall w r w', m w = (r, w') -> payments w' = payments w.

(** What the hook, run on [txn], makes of the Payment table. *)
Definition hooked (txn : Transaction) (rows : list Payment) : list Payment :=
  map (fun row => if pk row =? payment_id txn
                  then gateway_postprocess txn row else row) rows.

End Statements.

(** ** How a call unfolds *)
Section Properties.

Context {G : Type} {env : Collaborators G}.

Implicit Types (c : Call G) (w : World G) (txn : Transaction) (p row : Payment).

Lemma run_call_unfolded c w : run_call c w = unfolded_call c w.
Proof.
  unfold unfolded_call.
  destruct c as [p t s a pm | p t s | p a s | p a | p | p a]; simpl;
    unfold process_payment, authorize, capture, refund, void, confirm,
      payment_postprocess, raise_payment_error, require_active_payment,
      with_locked_payment, atomic, select_for_update_get, bind, raise, ret,
      run_gateway_postprocess;
    destruct (is_active p); simpl; try reflexivity;
    change (find_payment (pk p) (log (EvSelectForUpdate (pk p)) w))
      with (find_payment (pk p) w);
    destruct (find_payment (pk p) w) as [row|]; simpl; try reflexivity;
    match goal with
    | |- context [?body row ?a1 ?a2 ?a3 ?a4 (log ?e w)] =>
        destruct (body row a1 a2 a3 a4 (log e w)) as [[txn|e'] w2]
    | |- context [?body row ?a1 ?a2 (log ?e w)] =>
        destruct (body row a1 a2 (log e w)) as [[txn|e'] w2]
    | |- context [?body row ?a1 (log ?e w)] =>
        destruct (body row a1 (log e w)) as [[txn|e'] w2]
    | |- context [?body row (log ?e w)] =>
        destruct (body row (log e w)) as [[txn|e'] w2]
    end; simpl; try reflexivity;
    destruct (is_success txn); reflexivity.
Qed.

(** ** Quiet steps compose *)

Lemma trace_grows_quietly_refl w : trace_grows_quietly w w.
Proof. exists []. split; [symmetry; apply app_nil_r | reflexivity]. Qed.

Lemma trace_grows_quietly_trans w1 w2 w3 :
  trace_grows_quietly w1 w2 -> trace_grows_quietly w2 w3 ->
  trace_grows_quietly w1 w3.
Proof.
  intros [l1 [E1 F1]] [l2 [E2 F2]]. exists (l1 ++ l2). split.
  - rewrite E2, E1. symmetry. apply app_assoc.
  - rewrite forallb_app, F1, F2. reflexivity.
Qed.

Lemma trace_same_grows w w' : trace w' = trace w -> trace_grows_quietly w w'.
Proof.
  intros E. exists []. split; [rewrite E; symmetry; apply app_nil_r | reflexivity].
Qed.

Lemma quiet_step_refl w : quiet_step w w.
Proof. split; [reflexivity | apply trace_grows_quietly_refl]. Qed.

Lemma quiet_step_trans w1 w2 w3 :
  quiet_step w1 w2 -> quiet_step w2 w3 -> quiet_step w1 w3.
Proof.
  intros [R1 T1] [R2 T2]. split.
  - congruence.
  - eapply trace_grows_quietly_trans; eassumption.
Qed.

Lemma quiet_ret {A} (a : A) : quiet (G := G) (ret a).
Proof. intros w r w' H. inversion H; subst. apply quiet_step_refl. Qed.

Lemma quiet_raise {A} (e : Exn) : quiet (G := G) (A := A) (raise e).
Proof. intros w r w' H. inversion H; subst. apply quiet_step_refl. Qed.

Lemma quiet_lift {A} (x : Result A) : quiet (G := G) (lift x).
Proof. intros w r w' H. inversion H; subst. apply quiet_step_refl. Qed.

Lemma quiet_bind {A B} (m : M G A) (k : A -> M G B) :
  quiet m -> (forall a, quiet (k a)) -> quiet (bind m k).
Proof.
  intros Hm Hk w r w' H. unfold bind in H.
  destruct (m w) as [[a|e] w1] eqn:E.
  - eapply quiet_step_trans; [eapply Hm; exact E | eapply Hk; exact H].
  - inversion H; subst. eapply Hm; exact E.
Qed.

(** ** The primitives are quiet *)

Lemma quiet_call_gateway op (fn : GatewayFn G) gateway_name data :
  quiet (call_gateway op fn gateway_name data).
Proof.
  intros w r w' H. unfold call_gateway in H.
  destruct (fn gateway_name data (gw w)) as [[resp|e] g'];
    inversion H; subst; (split; [reflexivity|]);
    exists [EvGatewayCall op gateway_name data]; split; reflexivity.
Qed.

Lemma quiet_fetch_gateway_response
  (fn : string -> PaymentData -> M G GatewayResponse) gateway_name data :
  quiet (fn gateway_name data) ->
  quiet (_fetch_gateway_response fn gateway_name data).
Proof.
  intros Hfn w r w' H. unfold _fetch_gateway_response in H.
  assert (Hin : quiet (bind (fn gateway_name data)
                         (fun response =>
                            bind (lift (validate_gateway_response response))
                                 (fun _ => ret response)))).
  { apply quiet_bind; [exact Hfn|]. intros a.
    apply quiet_bind; [apply quiet_lift | intros; apply quiet_ret]. }
  destruct (bind (fn gateway_name data) _ w) as [[resp|e] w1] eqn:E.
  - inversion H; subst. eapply Hin; exact E.
  - specialize (Hin _ _ _ E).
    destruct e; inversion H; subst; try exact Hin;
      (eapply quiet_step_trans; [exact Hin|]);
      (split; [reflexivity|]); eexists [EvLog _]; split; reflexivity.
Qed.

Lemma quiet_update_if_method_info p (response : option GatewayResponse) :
  quiet (update_if_method_info p response).
Proof.
  intros w r w' H. unfold update_if_method_info in H.
  destruct response as [resp|]; [destruct (gr_payment_method_info resp)|];
    inversion H; subst; try apply quiet_step_refl.
  split; [reflexivity | apply trace_same_grows; reflexivity].
Qed.

Lemma quiet_get_past_transaction_token p k :
  quiet (_get_past_transaction_token p k).
Proof.
  intros w r w' H. unfold _get_past_transaction_token in H.
  destruct (last_successful (pk p) k w); inversion H; subst; apply quiet_step_refl.
Qed.

Lemma quiet_validate_refund_amount p (a : Decimal) :
  quiet (G := G) (_validate_refund_amount p a).
Proof.
  intros w r w' H. unfold _validate_refund_amount in H.
  destruct (Qle_bool a 0); [|destruct (negb (Qle_bool a (captured_amount p)))];
    inversion H; subst; apply quiet_step_refl.
Qed.

(** ** What the bodies do to the Transaction table *)

Lemma last_opt_In {A} (l : list A) (x : A) : last_opt l = Some x -> In x l.
Proof.
  induction l as [|a [|b rest] IH]; simpl; intros H.
  - discriminate.
  - inversion H. now left.
  - right. apply IH. exact H.
Qed.

Lemma last_opt_None {A} (l : list A) : last_opt l = None -> l = [].
Proof.
  induction l as [|a [|b rest] IH]; simpl; intros H.
  - reflexivity.
  - discriminate.
  - specialize (IH H). discriminate.
Qed.

Lemma filter_nil_false {A} (f : A -> bool) (l : list A) :
  filter f l = [] -> forall x, In x l -> f x = false.
Proof.
  induction l as [|a l IH]; simpl; intros H x Hx; [contradiction|].
  destruct (f a) eqn:E; [discriminate|].
  destruct Hx as [<-|Hx]; [exact E | apply IH; assumption].
Qed.

Lemma same_attempt_success key k tok t :
  same_attempt key k tok t = true -> is_success t = true.
Proof.
  unfold same_attempt. intros H.
  apply andb_true_iff in H. apply H.
Qed.

Lemma body_spec_create_transaction p k payment_information flag response
  error_msg ok :
  body_spec (G := G) false
    (create_transaction p k payment_information flag response error_msg ok).
Proof.
  intros w r w' H. unfold create_transaction in H. inversion H; subst; clear H.
  split; [apply trace_same_grows; reflexivity|].
  simpl. right. split; [reflexivity | discriminate].
Qed.

Lemma body_spec_idempotent_commit p k payment_information flag response error_msg :
  body_spec (G := G) true
    (get_already_processed_transaction_or_create_new_transaction
       p k payment_information flag response error_msg).
Proof.
  intros w r w' H.
  unfold get_already_processed_transaction_or_create_new_transaction in H.
  destruct (last_opt _) as [existing|] eqn:E.
  - inversion H; subst; clear H.
    split; [apply trace_same_grows; reflexivity|]. simpl. left.
    apply last_opt_In in E. apply filter_In in E. destruct E as [Hin Hsame].
    repeat split; [exact Hin | eapply same_attempt_success; exact Hsame].
  - unfold create_transaction in H. inversion H; subst; clear H.
    split; [apply trace_same_grows; reflexivity|]. simpl. right.
    split; [reflexivity|]. intros _.
    apply filter_nil_false. apply last_opt_None. exact E.
Qed.

Lemma body_spec_weaken strict (m : M G Transaction) :
  body_spec true m -> body_spec strict m.
Proof.
  intros Hm w r w' H. destruct (Hm _ _ _ H) as [T C]. split; [exact T|].
  destruct r as [txn|e]; simpl in *; [|exact C].
  destruct C as [C|[C1 C2]]; [left; exact C | right].
  split; [exact C1 | intros _; apply C2; reflexivity].
Qed.

Lemma body_spec_raise strict (e : Exn) : body_spec (G := G) strict (raise e).
Proof.
  intros w r w' H. inversion H; subst.
  split; [apply trace_grows_quietly_refl | reflexivity].
Qed.

Lemma body_spec_bind {A} strict (m : M G A) (k : A -> M G Transaction) :
  quiet m -> (forall a, body_spec strict (k a)) -> body_spec strict (bind m k).
Proof.
  intros Hm Hk w r w' H. unfold bind in H.
  destruct (m w) as [[a|e] w1] eqn:E.
  - destruct (Hm _ _ _ E) as [R1 T1]. destruct (Hk _ _ _ _ H) as [T2 C2].
    split; [eapply trace_grows_quietly_trans; eassumption|].
    unfold commit_outcome in *. rewrite R1 in C2. exact C2.
  - inversion H; subst. destruct (Hm _ _ _ E) as [R1 T1].
    split; [exact T1 | exact R1].
Qed.

Lemma body_spec_read strict (f : World G -> M G Transaction) :
  (forall w0, body_spec strict (f w0)) -> body_spec strict (fun w => f w w).
Proof. intros Hf w r w' H. eapply Hf; exact H. Qed.

Ltac quiet_primitive :=
  first
    [ apply quiet_lift
    | apply quiet_update_if_method_info
    | apply quiet_get_past_transaction_token
    | apply quiet_validate_refund_amount
    | apply quiet_fetch_gateway_response;
      unfold manager_process_payment, manager_authorize_payment,
        manager_capture_payment, manager_refund_payment, manager_void_payment,
        manager_confirm_payment;
      apply quiet_call_gateway ].

Ltac body_steps :=
  repeat first
    [ apply body_spec_idempotent_commit
    | apply body_spec_raise
    | apply body_spec_bind; [quiet_primitive | intros]
    | match goal with
      | |- body_spec _ (let '(_, _) := ?ra in _) => destruct ra
      end ].

Lemma process_payment_body_spec p t s a pm :
  body_spec true (process_payment_body p t s a pm).
Proof. unfold process_payment_body. body_steps. Qed.

Lemma authorize_body_spec p t s : body_spec true (authorize_body p t s).
Proof. unfold authorize_body. body_steps. Qed.

Lemma capture_body_spec p a s : body_spec true (capture_body p a s).
Proof. unfold capture_body. body_steps. Qed.

Lemma void_body_spec p : body_spec true (void_body p).
Proof. unfold void_body. body_steps. Qed.

Lemma confirm_body_spec p a : body_spec true (confirm_body p a).
Proof.
  unfold confirm_body.
  apply (body_spec_read true
           (fun w0 =>
              bind (_fetch_gateway_response
                      (manager_confirm_payment get_plugins_manager) (gateway p)
                      (create_payment_information p
                         match last_successful (pk p) ACTION_TO_CONFIRM w0 with
                         | Some t => token t
                         | None => ""
                         end None false a)) _)).
  intros w0. body_steps.
Qed.

Lemma refund_body_spec p a : body_spec (negb (is_manual p)) (refund_body p a).
Proof.
  unfold refund_body.
  apply body_spec_bind; [quiet_primitive | intros _].
  destruct (negb (can_refund p)); [apply body_spec_raise|].
  apply body_spec_bind; [quiet_primitive | intros tok].
  destruct (is_manual p); simpl.
  - apply body_spec_create_transaction.
  - body_steps.
Qed.

(** The table discipline of every body: strict except for the refund of a
    manual payment. *)
Lemma call_body_spec c row :
  body_spec (negb (is_manual_refund_of c row)) (call_body c row).
Proof.
  destruct c; simpl.
  - apply process_payment_body_spec.
  - apply authorize_body_spec.
  - apply capture_body_spec.
  - apply refund_body_spec.
  - apply void_body_spec.
  - apply confirm_body_spec.
Qed.

(** ** Facts about the stages of a call *)

Lemma postprocess_runs_app (l1 l2 : list Event) :
  postprocess_runs (l1 ++ l2) = postprocess_runs l1 ++ postprocess_runs l2.
Proof. apply filter_app. Qed.

Lemma gateway_calls_app (l1 l2 : list Event) :
  gateway_calls (l1 ++ l2) = gateway_calls l1 ++ gateway_calls l2.
Proof. apply filter_app. Qed.

Lemma body_events_no_postprocess (l : list Event) :
  forallb body_event l = true -> postprocess_runs l = [].
Proof.
  induction l as [|e l IH]; simpl; intros H; [reflexivity|].
  apply andb_true_iff in H. destruct H as [He Hl].
  destruct e; simpl in *; try discriminate; apply IH; exact Hl.
Qed.

Lemma find_payment_pk key w row : find_payment key w = Some row -> pk row = key.
Proof.
  unfold find_payment. intros H. apply find_some in H.
  destruct H as [_ H]. apply Nat.eqb_eq. exact H.
Qed.

Lemma call_body_with_payment c p : call_body (with_payment c p) = call_body c.
Proof. destruct c; reflexivity. Qed.

Lemma call_payment_with_payment c p : call_payment (with_payment c p) = p.
Proof. destruct c; reflexivity. Qed.

Lemma is_capture_call_with_payment c p :
  is_capture_call (with_payment c p) = is_capture_call c.
Proof. destruct c; reflexivity. Qed.

(** ** The claims *)

(** C3. Inactive guard: an orchestrator call on a payment object whose
    [is_active] flag is false raises the inactive-payment [PaymentError] and
    leaves the world exactly as it was: no lock is taken, no gateway function
    is called, no Transaction is created. *)
Theorem inactive_guard c w :
  is_active (call_payment c) = false ->
  run_call c w = (Raise (PaymentError INACTIVE_MSG), w)
  /\ gateway_calls (trace (snd (run_call c w))) = gateway_calls (trace w)
  /\ transactions (snd (run_call c w)) = transactions w.
Proof.
  intros H. rewrite run_call_unfolded. unfold unfolded_call. rewrite H.
  repeat split.
Qed.

(** C2, as the code has it.  What an orchestrator call gives back is decided
    by what the function under [raise_payment_error] did.  When the body
    produced a successful Transaction the call returns that Transaction; when
    it produced an unsuccessful one the call raises a [PaymentError] carrying
    that Transaction's error message, or the generic message when the
    Transaction has none or an empty one; when a guard, the reload or the
    body raised before any Transaction was produced, the call raises that
    same exception (the inactive-payment error, a precondition error, the
    reload's exception, an exception [_fetch_gateway_response] does not
    catch).  No call returns an unsuccessful Transaction. *)
Theorem success_or_error c w :
  (forall txn w', run_call c w = (Ok txn, w') -> is_success txn = true)
  /\ (forall row txn w2,
        is_active (call_payment c) = true ->
        find_payment (pk (call_payment c)) w = Some row ->
        call_body c row (log (EvSelectForUpdate (pk (call_payment c))) w)
        = (Ok txn, w2) ->
        fst (run_call c w)
        = if is_success txn
          then Ok txn
          else Raise (PaymentError (error_or_generic txn)))
  /\ (forall row e w2,
        is_active (call_payment c) = true ->
        find_payment (pk (call_payment c)) w = Some row ->
        call_body c row (log (EvSelectForUpdate (pk (call_payment c))) w)
        = (Raise e, w2) ->
        fst (run_call c w) = Raise e)
  /\ (is_active (call_payment c) = true ->
      find_payment (pk (call_payment c)) w = None ->
      fst (run_call c w) = Raise (OtherException "Payment.DoesNotExist"))
  /\ (is_active (call_payment c) = false ->
      fst (run_call c w) = Raise (PaymentError INACTIVE_MSG))
  /\ (forall txn,
        error_or_generic txn
        = match error txn with
          | Some msg => if String.eqb msg "" then GENERIC_TRANSACTION_ERROR else msg
          | None => GENERIC_TRANSACTION_ERROR
          end).
Proof.
  repeat split.
  - intros txn w' H. rewrite run_call_unfolded in H. unfold unfolded_call in H.
    destruct (is_active (call_payment c)); [|discriminate].
    destruct (find_payment _ w) as [row|]; [|discriminate].
    destruct (call_body c row _) as [[t|e] w2]; [|discriminate].
    destruct (is_success t) eqn:E; [|discriminate].
    destruct (is_capture_call c); inversion H; subst; exact E.
  - intros row txn w2 Ha Hf Hb.
    rewrite run_call_unfolded. unfold unfolded_call.
    rewrite Ha, Hf, Hb. destruct (is_success txn); reflexivity.
  - intros row e w2 Ha Hf Hb.
    rewrite run_call_unfolded. unfold unfolded_call.
    rewrite Ha, Hf, Hb. reflexivity.
  - intros Ha Hf. rewrite run_call_unfolded. unfold unfolded_call.
    rewrite Ha, Hf. reflexivity.
  - intros Ha. rewrite run_call_unfolded. unfold unfolded_call.
    rewrite Ha. reflexivity.
  - intros txn. unfold error_or_generic.
    destruct (error txn) as [[|ch rest]|]; reflexivity.
Qed.

(** C10. The hook runs on an unsuccessful Transaction too: when the body of
    an orchestrator returns an unsuccessful Transaction, [gateway_postprocess]
    is applied to it and to its payment row, the atomic block commits, and
    only then the [PaymentError] is raised. *)
Theorem postprocess_before_error c w row txn w2 :
  is_active (call_payment c) = true ->
  find_payment (pk (call_payment c)) w = Some row ->
  call_body c row (log (EvSelectForUpdate (pk (call_payment c))) w) = (Ok txn, w2) ->
  is_success txn = false ->
  exists w',
    run_call c w = (Raise (PaymentError (error_or_generic txn)), w')
    /\ trace w' = trace w2 ++ [EvPostprocess txn; EvAtomicExit true]
    /\ payments w'
       = map (fun r => if pk r =? payment_id txn
                       then gateway_postprocess txn r else r) (payments w2)
    /\ transactions w' = transactions w2.
Proof.
  intros Ha Hf Hb Hs.
  exists (log (EvAtomicExit true) (postprocessed txn w2)).
  rewrite run_call_unfolded. unfold unfolded_call.
  rewrite Ha, Hf, Hb, Hs. repeat split.
  simpl. rewrite <- app_assoc. reflexivity.
Qed.

(** C4, as the code has it.  The activity check is made on the payment
    object the caller passes, before the lock is taken: an inactive object
    fails the call with the world untouched; an active one lets the call
    take the lock and reload the row, and the body then runs on the reloaded
    row whatever that row's [is_active] flag is.  Of the caller's object only
    the key and the flag matter. *)
Theorem activity_check_precedes_lock c w :
  (is_active (call_payment c) = false ->
   run_call c w = (Raise (PaymentError INACTIVE_MSG), w))
  /\ (is_active (call_payment c) = true ->
      exists rest,
        trace (snd (run_call c w))
        = trace w ++ EvSelectForUpdate (pk (call_payment c)) :: rest)
  /\ (is_active (call_payment c) = true ->
      forall row,
        find_payment (pk (call_payment c)) w = Some row ->
        exists r2 w2 rest,
          call_body c row (log (EvSelectForUpdate (pk (call_payment c))) w) = (r2, w2)
          /\ trace (snd (run_call c w)) = trace w2 ++ rest)
  /\ (forall p',
        pk p' = pk (call_payment c) ->
        is_active p' = is_active (call_payment c) ->
        run_call (with_payment c p') w = run_call c w).
Proof.
  split; [|split; [|split]].
  - intros H. rewrite run_call_unfolded. unfold unfolded_call. rewrite H.
    reflexivity.
  - intros H. rewrite run_call_unfolded. unfold unfolded_call. rewrite H.
    destruct (find_payment _ w) as [row|].
    + destruct (call_body c row _) as [[txn|e] w2] eqn:E;
        destruct (call_body_spec c row _ _ _ E) as [[l [T _]] _]; simpl in T.
      * destruct (is_success txn); [destruct (is_capture_call c)|]; simpl;
          rewrite T; repeat rewrite <- app_assoc; simpl; eexists; reflexivity.
      * simpl. rewrite T. repeat rewrite <- app_assoc. simpl.
        eexists; reflexivity.
    + simpl. rewrite <- app_assoc. simpl. eexists; reflexivity.
  - intros H row Hf. rewrite run_call_unfolded. unfold unfolded_call.
    rewrite H, Hf.
    destruct (call_body c row _) as [[txn|e] w2] eqn:E.
    + exists (Ok txn), w2.
      destruct (is_success txn); [destruct (is_capture_call c)|]; simpl;
        repeat rewrite <- app_assoc; eexists; split; reflexivity.
    + exists (Raise e), w2. simpl. eexists; split; reflexivity.
  - intros p' Hk Ha. rewrite !run_call_unfolded. unfold unfolded_call.
    rewrite call_payment_with_payment, call_body_with_payment,
      is_capture_call_with_payment, Hk, Ha.
    reflexivity.
Qed.

(** C9, as the code has it.  For [process_payment], [authorize], [refund],
    [void] and [confirm], each wrapped once by [payment_postprocess]: a call
    that returns a Transaction, new or reused, has run the hook exactly once,
    on that Transaction; a call that raises either committed nothing and ran
    no hook, or committed an unsuccessful Transaction and ran the hook
    exactly once, on it. *)
Theorem hook_runs_once_per_commit c w r w' :
  is_capture_call c = false ->
  run_call c w = (r, w') ->
  match r with
  | Ok txn =>
      postprocess_runs (trace w') = postprocess_runs (trace w) ++ [EvPostprocess txn]
  | Raise e =>
      (postprocess_runs (trace w') = postprocess_runs (trace w)
       /\ transactions w' = transactions w)
      \/ (exists txn,
            In txn (transactions w') /\ is_success txn = false
            /\ e = PaymentError (error_or_generic txn)
            /\ postprocess_runs (trace w')
               = postprocess_runs (trace w) ++ [EvPostprocess txn])
  end.
Proof.
  intros Hc H. rewrite run_call_unfolded in H. unfold unfolded_call in H.
  rewrite Hc in H.
  destruct (is_active (call_payment c)).
  - destruct (find_payment _ w) as [row|].
    + destruct (call_body c row _) as [[txn|e] w2] eqn:E;
        destruct (call_body_spec c row _ _ _ E) as [[l [T Q]] C]; simpl in T.
      * apply body_events_no_postprocess in Q.
        destruct (is_success txn) eqn:S; inversion H; subst; clear H; simpl.
        -- rewrite T. rewrite !postprocess_runs_app, Q. simpl.
           rewrite !app_nil_r. reflexivity.
        -- right. exists txn. simpl in C.
           destruct C as [[_ [C _]]|[C _]]; [congruence|].
           repeat split; [rewrite C; apply in_or_app; right; now left | exact S |].
           rewrite T. rewrite !postprocess_runs_app, Q. simpl.
           rewrite !app_nil_r. reflexivity.
      * apply body_events_no_postprocess in Q.
        inversion H; subst; clear H. left. simpl. split; [|reflexivity].
        rewrite T. rewrite !postprocess_runs_app, Q. simpl.
        rewrite !app_nil_r. reflexivity.
    + inversion H; subst; clear H. left. simpl. split; [|reflexivity].
      rewrite !postprocess_runs_app. simpl. rewrite !app_nil_r. reflexivity.
  - inversion H; subst. left. split; reflexivity.
Qed.

(** [capture] carries [payment_postprocess] twice: a call that returns a
    Transaction has run the hook on it twice. *)
Lemma capture_runs_hook_twice p a s w txn w' :
  capture p a s w = (Ok txn, w') ->
  postprocess_runs (trace w')
  = postprocess_runs (trace w) ++ [EvPostprocess txn; EvPostprocess txn].
Proof.
  intros H. change (run_call (CallCapture p a s) w = (Ok txn, w')) in H.
  rewrite run_call_unfolded in H. unfold unfolded_call in H. simpl in H.
  destruct (is_active p); [|discriminate].
  destruct (find_payment _ w) as [row|]; [|discriminate].
  destruct (capture_body row a s _) as [[t|e] w2] eqn:E; [|discriminate].
  destruct (capture_body_spec row a s _ _ _ E) as [[l [T Q]] _]; simpl in T.
  apply body_events_no_postprocess in Q.
  destruct (is_success t); inversion H; subst; clear H. simpl.
  rewrite T. rewrite !postprocess_runs_app, Q. simpl.
  rewrite !app_nil_r, <- !app_assoc. reflexivity.
Qed.

(** C1, as the code has it (with the commit of utils.py modelled from the
    spec).  On every write path that goes through the idempotent commit,
    that is every orchestrator call except the refund of a manual payment:
    when a successful Transaction of the same payment, kind and token as the
    one the call returns already exists, the call returns an existing
    Transaction and inserts no row. *)
Theorem idempotent_commit_reuses_row c w :
  is_manual_refund c w = false ->
  reuses_existing_row c w.
Proof.
  intros Hm txn w' H [old [Hin Hsame]].
  rewrite run_call_unfolded in H. unfold unfolded_call in H.
  destruct (is_active (call_payment c)); [|discriminate].
  destruct (find_payment _ w) as [row|] eqn:F; [|discriminate].
  assert (Hs : negb (is_manual_refund_of c row) = true).
  { destruct c; try reflexivity. simpl in *. rewrite F in Hm. rewrite Hm.
    reflexivity. }
  destruct (call_body c row _) as [[t|e] w2] eqn:E; [|discriminate].
  destruct (call_body_spec c row _ _ _ E) as [_ C]. rewrite Hs in C.
  simpl in C.
  assert (txn = t /\ transactions w' = transactions w2) as [-> R].
  { destruct (is_success t); [|discriminate].
    destruct (is_capture_call c); inversion H; subst; split; reflexivity. }
  rewrite R. destruct C as [[C1 [_ C2]]|[_ C]].
  - split; assumption.
  - rewrite (C eq_refl old Hin) in Hsame. discriminate.
Qed.

(** C5. Gateway-response boundary: [_fetch_gateway_response] returns the
    response and no error when [fn] returns a response that passes
    validation; it returns no response and the fixed string [ERROR_MSG],
    whatever the exception's own message, when [fn] raises a gateway error
    or a payment error or when validation does; neither kind of exception
    leaves it; and it returns nothing else. *)
Theorem fetch_gateway_response_boundary
  (fn : string -> PaymentData -> M G GatewayResponse) gateway_name data w :
  (forall response w1,
     fn gateway_name data w = (Ok response, w1) ->
     validate_gateway_response response = Ok tt ->
     _fetch_gateway_response fn gateway_name data w = (Ok (Some response, None), w1))
  /\ (forall msg w1,
        fn gateway_name data w = (Raise (GatewayError msg), w1)
        \/ fn gateway_name data w = (Raise (PaymentError msg), w1) ->
        fst (_fetch_gateway_response fn gateway_name data w)
        = Ok (None, Some ERROR_MSG))
  /\ (forall response w1 msg,
        fn gateway_name data w = (Ok response, w1) ->
        validate_gateway_response response = Raise (GatewayError msg)
        \/ validate_gateway_response response = Raise (PaymentError msg) ->
        fst (_fetch_gateway_response fn gateway_name data w)
        = Ok (None, Some ERROR_MSG))
  /\ (forall msg,
        fst (_fetch_gateway_response fn gateway_name data w) <> Raise (GatewayError msg)
        /\ fst (_fetch_gateway_response fn gateway_name data w)
           <> Raise (PaymentError msg))
  /\ (forall response error_msg,
        fst (_fetch_gateway_response fn gateway_name data w)
        = Ok (response, error_msg) ->
        (exists r, response = Some r /\ error_msg = None
                   /\ fst (fn gateway_name data w) = Ok r
                   /\ validate_gateway_response r = Ok tt)
        \/ (response = None /\ error_msg = Some ERROR_MSG)).
Proof.
  unfold _fetch_gateway_response, bind, lift, ret.
  repeat split.
  - intros response w1 Hfn Hv. rewrite Hfn, Hv. reflexivity.
  - intros msg w1 [Hfn|Hfn]; rewrite Hfn; reflexivity.
  - intros response w1 msg Hfn [Hv|Hv]; rewrite Hfn, Hv; reflexivity.
  - destruct (fn gateway_name data w) as [[r|[m|m|n]] w1]; simpl;
      try discriminate.
    destruct (validate_gateway_response r) as [u|[m|m|n]]; simpl; discriminate.
  - destruct (fn gateway_name data w) as [[r|[m|m|n]] w1]; simpl;
      try discriminate.
    destruct (validate_gateway_response r) as [u|[m|m|n]]; simpl; discriminate.
  - intros response error_msg.
    destruct (fn gateway_name data w) as [[r|[m|m|n]] w1]; simpl;
      try discriminate; try (intros H; inversion H; subst; right; split; reflexivity).
    destruct (validate_gateway_response r) as [[]|[m|m|n]] eqn:V; simpl;
      try discriminate; intros H; inversion H; subst.
    + left. exists r. repeat split. exact V.
    + right. split; reflexivity.
    + right. split; reflexivity.
Qed.

(** C6, as the code has it.  [_validate_refund_amount] fails with an
    invalid-amount error when the amount is not positive and when it
    exceeds the captured amount; it passes the captured amount itself when
    that amount is positive; [refund] uses the captured amount of the
    payment when no amount is given; and a [refund] whose amount fails the
    validation raises that error without reaching the gateway or the
    Transaction table. *)
Theorem refund_amount_bounds p amt w :
  ((amt <= 0)%Q ->
   _validate_refund_amount p amt w
   = (Raise (PaymentError "Amount should be a positive number."), w))
  /\ ((captured_amount p < amt)%Q ->
      exists e, InvalidAmountError e
                /\ _validate_refund_amount p amt w = (Raise e, w))
  /\ ((0 < captured_amount p)%Q ->
      _validate_refund_amount p (captured_amount p) w = (Ok tt, w))
  /\ refund_body p None = refund_body p (Some (captured_amount p))
  /\ (forall snapshot amount_arg,
        is_active snapshot = true ->
        find_payment (pk snapshot) w = Some p ->
        amt = amount_or amount_arg (captured_amount p) ->
        (amt <= 0)%Q \/ (captured_amount p < amt)%Q ->
        exists e w',
          InvalidAmountError e
          /\ refund snapshot amount_arg w = (Raise e, w')
          /\ transactions w' = transactions w
          /\ gateway_calls (trace w') = gateway_calls (trace w)).
Proof.
  assert (Hlow : (amt <= 0)%Q ->
                 _validate_refund_amount p amt w
                 = (Raise (PaymentError "Amount should be a positive number."), w)).
  { intros H. unfold _validate_refund_amount.
    apply Qle_bool_iff in H. rewrite H. reflexivity. }
  assert (Hhigh : (captured_amount p < amt)%Q ->
                  exists e, InvalidAmountError e
                            /\ _validate_refund_amount p amt w = (Raise e, w)).
  { intros H. unfold _validate_refund_amount.
    destruct (Qle_bool amt 0) eqn:E1.
    - eexists; split; [left; reflexivity | reflexivity].
    - destruct (Qle_bool amt (captured_amount p)) eqn:E2.
      + apply Qle_bool_iff in E2. exfalso. lra.
      + eexists; split; [right; reflexivity | reflexivity]. }
  split; [exact Hlow|]. split; [exact Hhigh|]. split; [|split].
  - intros H. unfold _validate_refund_amount.
    destruct (Qle_bool (captured_amount p) 0) eqn:E1.
    + apply Qle_bool_iff in E1. exfalso. lra.
    + assert (E2 : Qle_bool (captured_amount p) (captured_amount p) = true)
        by (apply Qle_bool_iff; lra).
      rewrite E2. reflexivity.
  - reflexivity.
  - intros snapshot amount_arg Ha Hf Hamt Hbad.
    assert (Hv : exists e, InvalidAmountError e
                           /\ forall w0 : World G,
                                _validate_refund_amount p amt w0 = (Raise e, w0)).
    { unfold _validate_refund_amount.
      destruct (Qle_bool amt 0) eqn:E1.
      - eexists; split; [left; reflexivity | reflexivity].
      - destruct (Qle_bool amt (captured_amount p)) eqn:E2.
        + exfalso. apply Qle_bool_iff in E2.
          destruct Hbad as [Hbad|Hbad]; [|lra].
          apply Qle_bool_iff in Hbad. congruence.
        + eexists; split; [right; reflexivity | reflexivity]. }
    destruct Hv as [e [He Hv]].
    exists e. eexists. split; [exact He|].
    change (refund snapshot amount_arg w) with (run_call (CallRefund snapshot amount_arg) w).
    rewrite run_call_unfolded. unfold unfolded_call. simpl.
    rewrite Ha, Hf. unfold refund_body, bind.
    change (match amount_arg with None => captured_amount p | Some a => a end)
      with (amount_or amount_arg (captured_amount p)).
    rewrite <- Hamt, Hv. split; [reflexivity|]. split; [reflexivity|].
    simpl. rewrite !gateway_calls_app. simpl. rewrite !app_nil_r. reflexivity.
Qed.

(** ** Running the bodies of [capture] and [refund] *)

Lemma bind_ok {A B} (m : M G A) (k : A -> M G B) w a w1 :
  m w = (Ok a, w1) -> bind m k w = k a w1.
Proof. intros H. unfold bind. rewrite H. reflexivity. Qed.


Lemma fetch_trace_call op (fn : GatewayFn G) gateway_name data w :
  exists rf wf l,
    _fetch_gateway_response (call_gateway op fn) gateway_name data w = (rf, wf)
    /\ trace wf = trace w ++ [EvGatewayCall op gateway_name data] ++ l.
Proof.
  unfold _fetch_gateway_response, bind, lift, ret, call_gateway.
  destruct (fn gateway_name data (gw w)) as [[r|[m|m|n]] g'].
  - destruct (validate_gateway_response r) as [u|[m|m|n]];
      do 3 eexists; (split; [reflexivity|]); simpl;
      first [ rewrite <- app_assoc; reflexivity
            | instantiate (1 := []); reflexivity ].
  - do 3 eexists. split; [reflexivity|]. simpl.
    rewrite <- app_assoc. reflexivity.
  - do 3 eexists. split; [reflexivity|]. simpl.
    rewrite <- app_assoc. reflexivity.
  - do 3 eexists. split; [reflexivity|]. simpl.
    instantiate (1 := []). reflexivity.
Qed.

Lemma run_call_trace_after_body c w row r2 w2 :
  is_active (call_payment c) = true ->
  find_payment (pk (call_payment c)) w = Some row ->
  call_body c row (log (EvSelectForUpdate (pk (call_payment c))) w) = (r2, w2) ->
  exists rest, trace (snd (run_call c w)) = trace w2 ++ rest.
Proof.
  intros Ha Hf Hb. rewrite run_call_unfolded. unfold unfolded_call.
  rewrite Ha, Hf, Hb. destruct r2 as [txn|e].
  - destruct (is_success txn); [destruct (is_capture_call c)|]; simpl;
      repeat rewrite <- app_assoc; eexists; reflexivity.
  - simpl. eexists; reflexivity.
Qed.

Lemma validate_refund_amount_ok p (a : Decimal) w :
  fst (_validate_refund_amount p a w) = Ok tt ->
  forall w0 : World G, _validate_refund_amount p a w0 = (Ok tt, w0).
Proof.
  unfold _validate_refund_amount. intros H w0.
  destruct (Qle_bool a 0); [discriminate|].
  destruct (negb (Qle_bool a (captured_amount p))); [discriminate|].
  reflexivity.
Qed.


(** C8. Manual refund path (with [create_transaction] of utils.py modelled
    from the spec): a [refund] on an active payment whose reloaded row is
    manual, passes the amount validation and [can_refund], and has a
    successful EXTERNAL Transaction, returns a new Transaction of kind REFUND
    with [is_success] true, appended to the table, and calls no gateway
    function: the trace gains the reload, the hook and the commit only, and
    the gateway's state is untouched. *)
Theorem manual_refund_skips_gateway p row amount_arg w ext :
  is_active p = true ->
  find_payment (pk p) w = Some row ->
  is_manual row = true ->
  fst (_validate_refund_amount row (amount_or amount_arg (captured_amount row)) w)
  = Ok tt ->
  can_refund row = true ->
  last_successful (pk row) EXTERNAL w = Some ext ->
  exists txn w',
    refund p amount_arg w = (Ok txn, w')
    /\ kind txn = REFUND /\ is_success txn = true
    /\ payment_id txn = pk row /\ token txn = token ext
    /\ transactions w' = transactions w ++ [txn]
    /\ trace w' = trace w ++ [EvSelectForUpdate (pk p); EvPostprocess txn;
                              EvAtomicExit true]
    /\ gateway_calls (trace w') = gateway_calls (trace w)
    /\ gw w' = gw w.
Proof.
  intros Ha Hf Hm Hv Hc Hlast.
  change (refund p amount_arg) with (run_call (CallRefund p amount_arg)).
  rewrite run_call_unfolded. unfold unfolded_call. simpl.
  rewrite Ha, Hf. unfold refund_body.
  change (match amount_arg with None => captured_amount row | Some a => a end)
    with (amount_or amount_arg (captured_amount row)).
  erewrite bind_ok by (apply (validate_refund_amount_ok _ _ w Hv)).
  rewrite Hc, Hm. simpl.
  erewrite bind_ok
    by (unfold _get_past_transaction_token;
        change (last_successful (pk row) EXTERNAL (log (EvSelectForUpdate (pk p)) w))
          with (last_successful (pk row) EXTERNAL w);
        rewrite Hlast; reflexivity).
  unfold create_transaction. simpl.
  do 2 eexists. split; [reflexivity|]. simpl.
  repeat split.
  - rewrite <- !app_assoc. reflexivity.
  - rewrite <- !app_assoc, gateway_calls_app. simpl. apply app_nil_r.
Qed.

(** ** Talking to the gateway *)

Lemma silent_of_same {A} (m : M G A) :
  (forall w r w', m w = (r, w') -> gw w' = gw w /\ trace w' = trace w) ->
  silent m.
Proof.
  intros Hm w r w' H. destruct (Hm _ _ _ H) as [Eg Et].
  split; [exact Eg|]. exists []. rewrite Et, app_nil_r. split; reflexivity.
Qed.

Lemma silent_ret {A} (a : A) : silent (G := G) (ret a).
Proof. apply silent_of_same. intros w r w' H. inversion H; subst. split; reflexivity. Qed.

Lemma silent_raise {A} (e : Exn) : silent (G := G) (A := A) (raise e).
Proof. apply silent_of_same. intros w r w' H. inversion H; subst. split; reflexivity. Qed.

Lemma silent_lift {A} (x : Result A) : silent (G := G) (lift x).
Proof. apply silent_of_same. intros w r w' H. inversion H; subst. split; reflexivity. Qed.

Lemma silent_bind {A B} (m : M G A) (k : A -> M G B) :
  silent m -> (forall a, silent (k a)) -> silent (bind m k).
Proof.
  intros Hm Hk w r w' H. unfold bind in H.
  destruct (m w) as [[a|e] w1] eqn:E.
  - destruct (Hm _ _ _ E) as [G1 [l1 [T1 C1]]].
    destruct (Hk _ _ _ _ H) as [G2 [l2 [T2 C2]]].
    split; [congruence|]. exists (l1 ++ l2). split.
    + rewrite T2, T1. symmetry. apply app_assoc.
    + rewrite gateway_calls_app, C1, C2. reflexivity.
  - inversion H; subst. eapply Hm; exact E.
Qed.

Lemma silent_update_if_method_info p (response : option GatewayResponse) :
  silent (update_if_method_info p response).
Proof.
  apply silent_of_same. intros w r w' H. unfold update_if_method_info in H.
  destruct response as [resp|]; [destruct (gr_payment_method_info resp)|];
    inversion H; subst; split; reflexivity.
Qed.

Lemma silent_get_past_transaction_token p k :
  silent (_get_past_transaction_token p k).
Proof.
  apply silent_of_same. intros w r w' H. unfold _get_past_transaction_token in H.
  destruct (last_successful (pk p) k w); inversion H; subst; split; reflexivity.
Qed.

Lemma silent_validate_refund_amount p (a : Decimal) :
  silent (G := G) (_validate_refund_amount p a).
Proof.
  apply silent_of_same. intros w r w' H. unfold _validate_refund_amount in H.
  destruct (Qle_bool a 0); [|destruct (negb (Qle_bool a (captured_amount p)))];
    inversion H; subst; split; reflexivity.
Qed.

Lemma silent_create_transaction p k payment_information flag response
  error_msg ok :
  silent (G := G)
    (create_transaction p k payment_information flag response error_msg ok).
Proof.
  apply silent_of_same. intros w r w' H. unfold create_transaction in H.
  inversion H; subst. split; reflexivity.
Qed.

Lemma silent_idempotent_commit p k payment_information flag response error_msg :
  silent (G := G)
    (get_already_processed_transaction_or_create_new_transaction
       p k payment_information flag response error_msg).
Proof.
  apply silent_of_same. intros w r w' H.
  unfold get_already_processed_transaction_or_create_new_transaction in H.
  destruct (last_opt _); [|unfold create_transaction in H];
    inversion H; subst; split; reflexivity.
Qed.

Lemma once_of_silent op name {A} (m : M G A) :
  silent m -> calls_at_most_once op name m.
Proof.
  intros Hm w r w' H. destruct (Hm _ _ _ H) as [Eg [l [T C]]].
  exists l. split; [exact T|]. left. split; assumption.
Qed.

Lemma once_bind_prefix op name {A B} (m : M G A) (k : A -> M G B) :
  silent m -> (forall a, calls_at_most_once op name (k a)) ->
  calls_at_most_once op name (bind m k).
Proof.
  intros Hm Hk w r w' H. unfold bind in H.
  destruct (m w) as [[a|e] w1] eqn:E; destruct (Hm _ _ _ E) as [G1 [l1 [T1 C1]]].
  - destruct (Hk _ _ _ _ H) as [l2 [T2 D]].
    exists (l1 ++ l2). split; [rewrite T2, T1; symmetry; apply app_assoc|].
    rewrite gateway_calls_app, C1. simpl.
    destruct D as [[D1 D2]|D]; [left; split; congruence | right; exact D].
  - inversion H; subst. exists l1. split; [exact T1|]. left. split; assumption.
Qed.

Lemma once_bind_suffix op name {A B} (m : M G A) (k : A -> M G B) :
  calls_at_most_once op name m -> (forall a, silent (k a)) ->
  calls_at_most_once op name (bind m k).
Proof.
  intros Hm Hk w r w' H. unfold bind in H.
  destruct (m w) as [[a|e] w1] eqn:E; destruct (Hm _ _ _ E) as [l1 [T1 D]].
  - destruct (Hk _ _ _ _ H) as [G2 [l2 [T2 C2]]].
    exists (l1 ++ l2). split; [rewrite T2, T1; symmetry; apply app_assoc|].
    rewrite gateway_calls_app, C2, app_nil_r.
    destruct D as [[D1 D2]|D]; [left; split; congruence | right; exact D].
  - inversion H; subst. exists l1. split; [exact T1 | exact D].
Qed.

Lemma once_read op name {A} (f : World G -> M G A) :
  (forall w0, calls_at_most_once op name (f w0)) ->
  calls_at_most_once op name (fun w => f w w).
Proof. intros Hf w r w' H. eapply Hf; exact H. Qed.

Lemma once_fetch_gateway_response op (fn : GatewayFn G) name data :
  calls_at_most_once op name
    (_fetch_gateway_response (call_gateway op fn) name data).
Proof.
  intros w r w' H.
  destruct (fetch_trace_call op fn name data w) as [rf [wf [l [E T]]]].
  rewrite E in H. inversion H; subst; clear H.
  exists ([EvGatewayCall op name data] ++ l). split; [exact T|].
  right. exists data.
  revert E T. unfold _fetch_gateway_response, bind, lift, ret, call_gateway.
  destruct (fn name data (gw w)) as [[resp|[m|m|n]] g'];
    [destruct (validate_gateway_response resp) as [u|[m|m|n]]|..];
    intros E T; inversion E; subst; clear E; simpl in T;
    repeat rewrite <- app_assoc in T; apply app_inv_head in T;
    simpl in T; inversion T; subst; reflexivity.
Qed.

Ltac silent_steps :=
  repeat first
    [ apply silent_idempotent_commit
    | apply silent_create_transaction
    | apply silent_ret
    | apply silent_raise
    | apply silent_lift
    | apply silent_update_if_method_info
    | apply silent_get_past_transaction_token
    | apply silent_validate_refund_amount
    | apply silent_bind; [|intros] ].

Ltac once_steps :=
  repeat first
    [ apply once_bind_prefix; [solve [silent_steps] | intros]
    | apply once_bind_suffix;
      [ unfold manager_process_payment, manager_authorize_payment,
          manager_capture_payment, manager_refund_payment, manager_void_payment,
          manager_confirm_payment;
        apply once_fetch_gateway_response
      | intros [? ?]; solve [silent_steps] ] ].

Lemma call_body_calls_at_most_once c row :
  calls_at_most_once (gateway_op c) (gateway row) (call_body c row).
Proof.
  destruct c as [p t s a pm | p t s | p a s | p a | p | p a]; simpl.
  - unfold process_payment_body. once_steps.
  - unfold authorize_body. once_steps.
  - unfold capture_body. once_steps.
  - unfold refund_body.
    apply once_bind_prefix; [solve [silent_steps] | intros _].
    destruct (negb (can_refund row));
      [apply once_of_silent; apply silent_raise|].
    apply once_bind_prefix; [solve [silent_steps] | intros tok].
    destruct (is_manual row).
    + apply once_of_silent. apply silent_create_transaction.
    + once_steps.
  - unfold void_body. once_steps.
  - unfold confirm_body.
    apply (once_read ConfirmPayment (gateway row)
             (fun w0 =>
                bind (_fetch_gateway_response
                        (manager_confirm_payment get_plugins_manager) (gateway row)
                        (create_payment_information row
                           match last_successful (pk row) ACTION_TO_CONFIRM w0 with
                           | Some t => token t
                           | None => ""
                           end None false a)) _)).
    intros w0. once_steps.
Qed.

(** ** Further properties of the orchestrators *)

Lemma lock_acquisitions_app (l1 l2 : list Event) :
  lock_acquisitions (l1 ++ l2) = lock_acquisitions l1 ++ lock_acquisitions l2.
Proof. apply filter_app. Qed.

Lemma atomic_exits_app (l1 l2 : list Event) :
  atomic_exits (l1 ++ l2) = atomic_exits l1 ++ atomic_exits l2.
Proof. apply filter_app. Qed.

Lemma body_events_no_lock (l : list Event) :
  forallb body_event l = true -> lock_acquisitions l = [] /\ atomic_exits l = [].
Proof.
  induction l as [|e l IH]; simpl; intros H; [split; reflexivity|].
  apply andb_true_iff in H. destruct H as [He Hl].
  destruct e; simpl in *; try discriminate; apply IH; exact Hl.
Qed.

Lemma run_call_gateway_calls c w :
  exists l,
    gateway_calls (trace (snd (run_call c w))) = gateway_calls (trace w) ++ l
    /\ ((l = [] /\ gw (snd (run_call c w)) = gw w)
        \/ exists row d,
             find_payment (pk (call_payment c)) w = Some row
             /\ l = [EvGatewayCall (gateway_op c) (gateway row) d]).
Proof.
  rewrite run_call_unfolded. unfold unfolded_call.
  destruct (is_active (call_payment c)).
  - destruct (find_payment _ w) as [row|] eqn:F.
    + destruct (call_body c row _) as [r2 w2] eqn:E.
      destruct (call_body_calls_at_most_once c row _ _ _ E) as [l0 [T D]].
      simpl in T.
      exists (gateway_calls l0).
      assert (Hfinal :
                forall wF wr,
                  trace wF = trace w2 ++ wr -> gateway_calls wr = [] ->
                  gw wF = gw w2 ->
                  gateway_calls (trace wF) = gateway_calls (trace w) ++ gateway_calls l0
                  /\ ((gateway_calls l0 = [] /\ gw wF = gw w)
                      \/ exists row0 d,
                           Some row = Some row0
                           /\ gateway_calls l0
                              = [EvGatewayCall (gateway_op c) (gateway row0) d])).
      { intros wF wr TF CF GF. split.
        - rewrite TF, T, !gateway_calls_app, CF. simpl.
          rewrite !app_nil_r. reflexivity.
        - destruct D as [[D1 D2]|[d D]].
          + left. split; [exact D1|]. rewrite GF. exact D2.
          + right. exists row, d. split; [reflexivity | exact D]. }
      destruct r2 as [txn|e].
      * destruct (is_success txn); [destruct (is_capture_call c)|]; cbv iota.
        -- apply Hfinal
             with (wr := [EvPostprocess txn; EvAtomicExit true; EvPostprocess txn]);
             [simpl; rewrite <- !app_assoc; reflexivity | reflexivity | reflexivity].
        -- apply Hfinal with (wr := [EvPostprocess txn; EvAtomicExit true]);
             [simpl; rewrite <- !app_assoc; reflexivity | reflexivity | reflexivity].
        -- apply Hfinal with (wr := [EvPostprocess txn; EvAtomicExit true]);
             [simpl; rewrite <- !app_assoc; reflexivity | reflexivity | reflexivity].
      * apply Hfinal with (wr := [EvAtomicExit false]); reflexivity.
    + exists []. simpl. split; [|left; split; reflexivity].
      rewrite !gateway_calls_app. simpl. rewrite !app_nil_r. reflexivity.
  - exists []. simpl. split; [symmetry; apply app_nil_r | left; split; reflexivity].
Qed.

(** X1. Every orchestrator call talks to the gateway at most once, through its
    own plugin-manager function and at the gateway named by the reloaded
    row; a call that does not talk to the gateway leaves the gateway's state
    as it was. *)
Theorem single_gateway_call c w :
  exists l,
    gateway_calls (trace (snd (run_call c w))) = gateway_calls (trace w) ++ l
    /\ ((l = [] /\ gw (snd (run_call c w)) = gw w)
        \/ exists row d,
             find_payment (pk (call_payment c)) w = Some row
             /\ l = [EvGatewayCall (gateway_op c) (gateway row) d]).
Proof. exact (run_call_gateway_calls c w). Qed.

(** X2. Lock discipline: a call whose payment object is inactive takes no lock;
    any other call takes the lock exactly once and leaves the atomic block
    exactly once, and when it leaves it by an exception the Payment and
    Transaction rows are those of before the call. *)
Theorem lock_discipline c w :
  if is_active (call_payment c)
  then
    lock_acquisitions (trace (snd (run_call c w)))
    = lock_acquisitions (trace w) ++ [EvSelectForUpdate (pk (call_payment c))]
    /\ exists b,
         atomic_exits (trace (snd (run_call c w)))
         = atomic_exits (trace w) ++ [EvAtomicExit b]
         /\ (b = false ->
             payments (snd (run_call c w)) = payments w
             /\ transactions (snd (run_call c w)) = transactions w
             /\ exists e, fst (run_call c w) = Raise e)
  else trace (snd (run_call c w)) = trace w.
Proof.
  rewrite run_call_unfolded. unfold unfolded_call.
  destruct (is_active (call_payment c)); [|reflexivity].
  destruct (find_payment _ w) as [row|].
  - destruct (call_body c row _) as [[txn|e] w2] eqn:E;
      destruct (call_body_spec c row _ _ _ E) as [[l [T Q]] _]; simpl in T;
      destruct (body_events_no_lock l Q) as [QL QA].
    + destruct (is_success txn); [destruct (is_capture_call c)|]; simpl;
        rewrite T, !lock_acquisitions_app, !atomic_exits_app, QL, QA; simpl;
        rewrite !app_nil_r;
        (split; [reflexivity|]); exists true;
        (split; [reflexivity | discriminate]).
    + simpl. rewrite T, !lock_acquisitions_app, !atomic_exits_app, QL, QA. simpl.
      rewrite !app_nil_r. split; [reflexivity|]. exists false.
      split; [reflexivity|]. intros _. repeat split. exists e. reflexivity.
  - simpl. rewrite !lock_acquisitions_app, !atomic_exits_app. simpl.
    rewrite !app_nil_r. split; [reflexivity|]. exists false.
    split; [reflexivity|]. intros _. repeat split. eexists. reflexivity.
Qed.

(** X3. Failure atomicity: a call that raises either leaves the Payment and
    Transaction rows as they were, or raises the [PaymentError] of an
    unsuccessful Transaction that its body returned; in particular an
    exception that is not a [PaymentError] never leaves a changed row. *)
Theorem failure_atomicity c w e w' :
  run_call c w = (Raise e, w') ->
  ((payments w' = payments w /\ transactions w' = transactions w)
   \/ (exists row txn w2,
         find_payment (pk (call_payment c)) w = Some row
         /\ call_body c row (log (EvSelectForUpdate (pk (call_payment c))) w)
            = (Ok txn, w2)
         /\ is_success txn = false
         /\ e = PaymentError (error_or_generic txn)))
  /\ ((forall msg, e <> PaymentError msg) ->
      payments w' = payments w /\ transactions w' = transactions w).
Proof.
  intros H. rewrite run_call_unfolded in H. unfold unfolded_call in H.
  assert (D : (payments w' = payments w /\ transactions w' = transactions w)
              \/ (exists row txn w2,
                    find_payment (pk (call_payment c)) w = Some row
                    /\ call_body c row (log (EvSelectForUpdate (pk (call_payment c))) w)
                       = (Ok txn, w2)
                    /\ is_success txn = false
                    /\ e = PaymentError (error_or_generic txn))).
  { destruct (is_active (call_payment c)).
    - destruct (find_payment _ w) as [row|].
      + destruct (call_body c row _) as [[txn|e'] w2] eqn:E.
        * destruct (is_success txn) eqn:S; [discriminate|].
          inversion H; subst. right. exists row, txn, w2.
          repeat split; assumption.
        * inversion H; subst. left. split; reflexivity.
      + inversion H; subst. left. split; reflexivity.
    - inversion H; subst. left. split; reflexivity. }
  split; [exact D|].
  intros Hne. destruct D as [D|[row [txn [w2 [_ [_ [_ D]]]]]]]; [exact D|].
  exfalso. exact (Hne _ D).
Qed.

(** X4. A payment object that is active but whose row is gone: the reload
    raises, after the lock attempt and before the body; nothing else
    happens. *)
Theorem missing_row_raises c w :
  is_active (call_payment c) = true ->
  find_payment (pk (call_payment c)) w = None ->
  run_call c w
  = (Raise (OtherException "Payment.DoesNotExist"),
     mkWorld (payments w) (transactions w) (gw w)
             (trace w ++ [EvSelectForUpdate (pk (call_payment c));
                          EvAtomicExit false])).
Proof.
  intros Ha Hf. rewrite run_call_unfolded. unfold unfolded_call.
  rewrite Ha, Hf. unfold log. simpl. rewrite <- app_assoc. reflexivity.
Qed.

(** X5. [capture] carries the hook twice: when its body returns a successful
    Transaction the hook runs on it inside the atomic block and once more
    after the block has been left, so the payment row is transformed twice;
    when the body returns an unsuccessful Transaction the hook runs once
    and the error is raised. *)
Theorem capture_hook_multiplicity p row a s w txn w2 :
  is_active p = true ->
  find_payment (pk p) w = Some row ->
  capture_body row a s (log (EvSelectForUpdate (pk p)) w) = (Ok txn, w2) ->
  let hook := fun r => if pk r =? payment_id txn
                       then gateway_postprocess txn r else r in
  exists w',
    capture p a s w
    = (if is_success txn then Ok txn
       else Raise (PaymentError (error_or_generic txn)), w')
    /\ trace w'
       = trace w2
         ++ (if is_success txn
             then [EvPostprocess txn; EvAtomicExit true; EvPostprocess txn]
             else [EvPostprocess txn; EvAtomicExit true])
    /\ payments w'
       = (if is_success txn then map hook (map hook (payments w2))
          else map hook (payments w2)).
Proof.
  intros Ha Hf Hb hook.
  change (capture p a s) with (run_call (CallCapture p a s)).
  rewrite run_call_unfolded. unfold unfolded_call. simpl.
  rewrite Ha, Hf, Hb.
  destruct (is_success txn); eexists; (split; [reflexivity|]); simpl;
    rewrite <- !app_assoc; split; reflexivity.
Qed.

(** ** The helpers, further *)

Lemma kind_eqb_eq (a b : TransactionKind) : kind_eqb a b = true <-> a = b.
Proof. destruct a, b; simpl; split; intros H; try reflexivity; discriminate H. Qed.

Lemma past_match_iff key k t :
  past_match key k t = true
  <-> payment_id t = key /\ kind t = k /\ is_success t = true.
Proof.
  unfold past_match. rewrite !andb_true_iff, Nat.eqb_eq, kind_eqb_eq.
  tauto.
Qed.

Lemma last_opt_snoc {A} (l : list A) (x : A) : last_opt (l ++ [x]) = Some x.
Proof.
  induction l as [|a l IH]; [reflexivity|].
  simpl. destruct (l ++ [x]) eqn:E; [destruct l; discriminate E | exact IH].
Qed.

Lemma last_successful_filter key k w :
  last_successful key k w = last_opt (filter (past_match key k) (transactions w)).
Proof. reflexivity. Qed.

(** X6. [_get_past_transaction_token] changes nothing; the token it returns is
    the token of a successful Transaction of that payment and kind in the
    table, and it raises exactly when the table holds no such row. *)
Theorem past_transaction_token_sound_and_complete p k w :
  (forall tok w',
     _get_past_transaction_token p k w = (Ok tok, w') ->
     w' = w
     /\ exists t, In t (transactions w) /\ payment_id t = pk p /\ kind t = k
                  /\ is_success t = true /\ token t = tok)
  /\ (forall e w',
        _get_past_transaction_token p k w = (Raise e, w') ->
        w' = w
        /\ e = PaymentError
                 ("Cannot find successful " ++ kind_value k ++ " transaction.")%string
        /\ forall t, In t (transactions w) ->
                     payment_id t = pk p -> kind t = k -> is_success t = false).
Proof.
  unfold _get_past_transaction_token. rewrite last_successful_filter.
  destruct (last_opt _) as [t|] eqn:E; split; intros x w' H; inversion H; subst.
  - split; [reflexivity|]. exists t.
    apply last_opt_In in E. apply filter_In in E. destruct E as [Hin Hm].
    apply past_match_iff in Hm. destruct Hm as [H1 [H2 H3]].
    repeat split; assumption.
  - split; [reflexivity|]. split; [reflexivity|].
    intros t Hin H1 H2. apply last_opt_None in E.
    pose proof (filter_nil_false _ _ E t Hin) as Hf.
    destruct (is_success t) eqn:S; [|reflexivity].
    assert (past_match (pk p) k t = true) by (apply past_match_iff; auto).
    congruence.
Qed.

(** X7. The most recent row wins: once a successful Transaction of the payment
    and kind is appended, [_get_past_transaction_token] returns its token;
    appending any other row changes nothing of what it returns. *)
Theorem past_transaction_token_most_recent p k t w :
  _get_past_transaction_token p k (with_transaction t w)
  = if past_match (pk p) k t
    then (Ok (token t), with_transaction t w)
    else (fst (_get_past_transaction_token p k w), with_transaction t w).
Proof.
  unfold _get_past_transaction_token. rewrite !last_successful_filter.
  unfold with_transaction at 1. simpl. rewrite filter_app. simpl.
  destruct (past_match (pk p) k t).
  - rewrite last_opt_snoc. reflexivity.
  - rewrite app_nil_r.
    destruct (last_opt (filter (past_match (pk p) k) (transactions w)));
      reflexivity.
Qed.

(** X8. [_fetch_gateway_response] around a plugin-manager function: the rows
    are untouched, the gateway is called exactly once, and a log entry is
    written exactly when the generic error is returned; an exception of
    another class passes through without a log entry. *)
Theorem fetch_logs_exactly_the_failures op (fn : GatewayFn G) name data w r w' :
  _fetch_gateway_response (call_gateway op fn) name data w = (r, w') ->
  payments w' = payments w /\ transactions w' = transactions w
  /\ exists logs,
       trace w' = trace w ++ EvGatewayCall op name data :: logs
       /\ match r with
          | Ok (Some _, None) => logs = []
          | Ok (None, Some msg) => msg = ERROR_MSG /\ exists text, logs = [EvLog text]
          | Ok _ => False
          | Raise e => logs = [] /\ exists n, e = OtherException n
          end.
Proof.
  unfold _fetch_gateway_response, bind, lift, ret, call_gateway.
  destruct (fn name data (gw w)) as [[resp|[m|m|n]] g'];
    [destruct (validate_gateway_response resp) as [u|[m|m|n]]|..];
    intros H; inversion H; subst; clear H; simpl;
    (split; [reflexivity|]); (split; [reflexivity|]);
    eexists; (split; [try rewrite <- app_assoc; simpl; reflexivity|]);
    simpl; eauto.
Qed.

(** X9. The two guards compose freely: each is idempotent, and they commute
    with each other. *)
Theorem guards_idempotent_and_commute (fn : Payment -> M G Transaction) p w :
  raise_payment_error (raise_payment_error fn) p w = raise_payment_error fn p w
  /\ require_active_payment (require_active_payment fn) p w
     = require_active_payment fn p w
  /\ raise_payment_error (require_active_payment fn) p w
     = require_active_payment (raise_payment_error fn) p w.
Proof.
  unfold raise_payment_error, require_active_payment, bind, raise, ret.
  repeat split.
  - destruct (fn p w) as [[txn|e] w1]; [|reflexivity].
    destruct (is_success txn) eqn:S; simpl; [rewrite S|]; reflexivity.
  - destruct (is_active p); reflexivity.
  - destruct (is_active p); reflexivity.
Qed.

(** ** [payment_refund_or_void] *)

Lemma run_call_only_own_gateway_calls c w :
  exists l,
    gateway_calls (trace (snd (run_call c w))) = gateway_calls (trace w) ++ l
    /\ forall ev, In ev l -> exists name d, ev = EvGatewayCall (gateway_op c) name d.
Proof.
  destruct (run_call_gateway_calls c w) as [l [E [[-> _]|[row [d [_ ->]]]]]].
  - exists []. split; [exact E | intros ev []].
  - eexists. split; [exact E|]. intros ev [<-|[]]. eauto.
Qed.

(** X10. [payment_refund_or_void] does nothing and returns normally when there
    is no payment, and when the payment can be neither refunded nor
    voided. *)
Theorem refund_or_void_noop w :
  payment_refund_or_void None w = (Ok tt, w)
  /\ forall p,
       can_refund p = false -> can_void p = false ->
       payment_refund_or_void (Some p) w = (Ok tt, w).
Proof.
  split; [reflexivity|]. intros p Hr Hv.
  unfold payment_refund_or_void. rewrite Hr, Hv. reflexivity.
Qed.

(** X11. [payment_refund_or_void] prefers the refund: on a refundable payment it
    is a full [refund] whose Transaction is dropped and whose exception, if
    any, reaches the caller, and the gateway's void function is not called
    even if the payment can be voided too; on a payment that can only be
    voided it is a [void] in the same way. *)
Theorem refund_or_void_dispatch p w :
  (can_refund p = true ->
   payment_refund_or_void (Some p) w
   = (match fst (refund p None w) with
      | Ok _ => Ok tt
      | Raise e => Raise e
      end, snd (refund p None w))
   /\ exists l,
        gateway_calls (trace (snd (payment_refund_or_void (Some p) w)))
        = gateway_calls (trace w) ++ l
        /\ forall ev, In ev l -> exists name d, ev = EvGatewayCall RefundPayment name d)
  /\ (can_refund p = false -> can_void p = true ->
      payment_refund_or_void (Some p) w
      = (match fst (void p w) with
         | Ok _ => Ok tt
         | Raise e => Raise e
         end, snd (void p w))
      /\ exists l,
           gateway_calls (trace (snd (payment_refund_or_void (Some p) w)))
           = gateway_calls (trace w) ++ l
           /\ forall ev, In ev l -> exists name d, ev = EvGatewayCall VoidPayment name d).
Proof.
  split.
  - intros Hr.
    assert (E : payment_refund_or_void (Some p) w
                = (match fst (refund p None w) with
                   | Ok _ => Ok tt
                   | Raise e => Raise e
                   end, snd (refund p None w))).
    { unfold payment_refund_or_void. rewrite Hr. unfold bind, ret.
      destruct (refund p None w) as [[txn|e] w1]; reflexivity. }
    split; [exact E|]. rewrite E. simpl.
    exact (run_call_only_own_gateway_calls (CallRefund p None) w).
  - intros Hr Hv.
    assert (E : payment_refund_or_void (Some p) w
                = (match fst (void p w) with
                   | Ok _ => Ok tt
                   | Raise e => Raise e
                   end, snd (void p w))).
    { unfold payment_refund_or_void. rewrite Hr, Hv. unfold bind, ret.
      destruct (void p w) as [[txn|e] w1]; reflexivity. }
    split; [exact E|]. rewrite E. simpl.
    exact (run_call_only_own_gateway_calls (CallVoid p) w).
Qed.

(** ** Reaching the gateway *)

Lemma last_successful_log key k (e : Event) w :
  last_successful key k (log e w) = last_successful key k w.
Proof. reflexivity. Qed.

Lemma fetch_gateway_state op (fn : GatewayFn G) name data w rf wf :
  _fetch_gateway_response (call_gateway op fn) name data w = (rf, wf) ->
  gw wf = snd (fn name data (gw w)).
Proof.
  unfold _fetch_gateway_response, bind, lift, ret, call_gateway.
  destruct (fn name data (gw w)) as [[resp|[m|m|n]] g'];
    [destruct (validate_gateway_response resp) as [u|[m|m|n]]|..];
    intros H; inversion H; subst; reflexivity.
Qed.

Lemma fetch_then_rest op (fn : GatewayFn G) name data
  (k : option GatewayResponse * option string -> M G Transaction) w1 :
  (forall ra, silent (k ra)) ->
  exists r2 w2 l,
    bind (_fetch_gateway_response (call_gateway op fn) name data) k w1 = (r2, w2)
    /\ trace w2 = trace w1 ++ [EvGatewayCall op name data] ++ l
    /\ gw w2 = snd (fn name data (gw w1)).
Proof.
  intros Hk.
  destruct (fetch_trace_call op fn name data w1) as [rf [wf [l [E T]]]].
  pose proof (fetch_gateway_state _ _ _ _ _ _ _ E) as Eg.
  unfold bind. rewrite E. destruct rf as [ra|e].
  - destruct (k ra wf) as [r2 w2] eqn:K.
    destruct (Hk ra _ _ _ K) as [G2 [l2 [T2 _]]].
    exists r2, w2, (l ++ l2). split; [reflexivity|]. split; [|congruence].
    rewrite T2, T, <- !app_assoc. reflexivity.
  - exists (Raise e), wf, l. repeat split; assumption.
Qed.

Lemma run_call_gw_after_body c w row r2 w2 :
  is_active (call_payment c) = true ->
  find_payment (pk (call_payment c)) w = Some row ->
  call_body c row (log (EvSelectForUpdate (pk (call_payment c))) w) = (r2, w2) ->
  gw (snd (run_call c w)) = gw w2.
Proof.
  intros Ha Hf Hb. rewrite run_call_unfolded. unfold unfolded_call.
  rewrite Ha, Hf, Hb. destruct r2 as [txn|e]; [|reflexivity].
  destruct (is_success txn); [destruct (is_capture_call c)|]; reflexivity.
Qed.

Lemma run_call_body_raises c w row e w2 :
  is_active (call_payment c) = true ->
  find_payment (pk (call_payment c)) w = Some row ->
  call_body c row (log (EvSelectForUpdate (pk (call_payment c))) w) = (Raise e, w2) ->
  run_call c w = (Raise e, log (EvAtomicExit false) (rollback w w2)).
Proof.
  intros Ha Hf Hb. rewrite run_call_unfolded. unfold unfolded_call.
  rewrite Ha, Hf, Hb. reflexivity.
Qed.

Lemma reaches_gateway c w row r2 w2 op name data l :
  is_active (call_payment c) = true ->
  find_payment (pk (call_payment c)) w = Some row ->
  call_body c row (log (EvSelectForUpdate (pk (call_payment c))) w) = (r2, w2) ->
  trace w2 = trace (log (EvSelectForUpdate (pk (call_payment c))) w)
             ++ [EvGatewayCall op name data] ++ l ->
  exists rest,
    trace (snd (run_call c w))
    = trace w ++ EvSelectForUpdate (pk (call_payment c))
        :: EvGatewayCall op name data :: rest.
Proof.
  intros Ha Hf Hb T.
  destruct (run_call_trace_after_body c w row r2 w2 Ha Hf Hb) as [rest R].
  exists (l ++ rest). rewrite R, T. simpl. rewrite <- !app_assoc. reflexivity.
Qed.

(** X12. [process_payment] has no precondition beyond the guards: on an active
    payment whose row exists it always calls the gateway's process function,
    at the row's gateway, with the caller's token and options; the manager
    used is the one passed in, the registry's only when none is passed. *)
Theorem process_payment_reaches_gateway p row tok s a pm w :
  is_active p = true ->
  find_payment (pk p) w = Some row ->
  let manager := match pm with Some m => m | None => get_plugins_manager end in
  let data := create_payment_information row tok None s a in
  (exists rest,
     trace (snd (process_payment p tok s a pm w))
     = trace w ++ EvSelectForUpdate (pk p)
         :: EvGatewayCall ProcessPayment (gateway row) data :: rest)
  /\ gw (snd (process_payment p tok s a pm w))
     = snd (pm_process_payment manager (gateway row) data (gw w)).
Proof.
  intros Ha Hf manager data.
  change (process_payment p tok s a pm)
    with (run_call (CallProcessPayment p tok s a pm)).
  set (w1 := log (EvSelectForUpdate (pk p)) w).
  destruct (fetch_then_rest ProcessPayment (pm_process_payment manager)
              (gateway row) data
              (fun ra : option GatewayResponse * option string =>
                 let '(response, error_msg) := ra in
                 bind (update_if_method_info row response)
                   (fun payment =>
                      get_already_processed_transaction_or_create_new_transaction
                        payment CAPTURE data (response_action_required response)
                        response error_msg))
              w1) as [r2 [w2 [l [B [T Eg]]]]].
  { intros [response error_msg]. silent_steps. }
  split.
  - eapply (reaches_gateway (CallProcessPayment p tok s a pm)); eassumption.
  - rewrite (run_call_gw_after_body (CallProcessPayment p tok s a pm)
               w row r2 w2 Ha Hf B).
    exact Eg.
Qed.

(** X13. [authorize] runs [clean_authorize] on the reloaded row first: when it
    raises, the call raises the same exception and the gateway is not
    called; when it passes, the gateway's authorize function is called with
    the caller's token. *)
Theorem authorize_clean_check_precedes_gateway p row tok s w :
  is_active p = true ->
  find_payment (pk p) w = Some row ->
  (forall e,
     clean_authorize row = Raise e ->
     authorize p tok s w
     = (Raise e, log (EvAtomicExit false) (log (EvSelectForUpdate (pk p)) w)))
  /\ (clean_authorize row = Ok tt ->
      exists rest,
        trace (snd (authorize p tok s w))
        = trace w ++ EvSelectForUpdate (pk p)
            :: EvGatewayCall AuthorizePayment (gateway row)
                 (create_payment_information row tok None s None) :: rest).
Proof.
  intros Ha Hf.
  change (authorize p tok s) with (run_call (CallAuthorize p tok s)).
  set (w1 := log (EvSelectForUpdate (pk p)) w).
  split.
  - intros e He.
    apply (run_call_body_raises (CallAuthorize p tok s) w row e w1 Ha Hf).
    simpl. unfold authorize_body, bind, lift. rewrite He. reflexivity.
  - intros Hc.
    destruct (fetch_then_rest AuthorizePayment
                (pm_authorize_payment get_plugins_manager) (gateway row)
                (create_payment_information row tok None s None)
                (fun ra : option GatewayResponse * option string =>
                   let '(response, error_msg) := ra in
                   bind (update_if_method_info row response)
                     (fun payment =>
                        get_already_processed_transaction_or_create_new_transaction
                          payment AUTH
                          (create_payment_information row tok None s None)
                          false response error_msg))
                w1) as [r2 [w2 [l [B [T _]]]]].
    { intros [response error_msg]. silent_steps. }
    eapply (reaches_gateway (CallAuthorize p tok s)); try eassumption.
    simpl. unfold authorize_body.
    erewrite bind_ok by (unfold lift; rewrite Hc; reflexivity).
    exact B.
Qed.

(** X14. [void] has one precondition of its own, the successful AUTH
    Transaction; [can_void] is not consulted.  Without the AUTH row the call
    raises before any gateway call; with it the gateway's void function is
    called with the token of the most recent one. *)
Theorem void_precondition_chaining p row w :
  is_active p = true ->
  find_payment (pk p) w = Some row ->
  (last_successful (pk row) AUTH w = None ->
   void p w
   = (Raise (PaymentError
               ("Cannot find successful " ++ kind_value AUTH ++ " transaction.")%string),
      log (EvAtomicExit false) (log (EvSelectForUpdate (pk p)) w)))
  /\ (forall auth,
        last_successful (pk row) AUTH w = Some auth ->
        exists rest,
          trace (snd (void p w))
          = trace w ++ EvSelectForUpdate (pk p)
              :: EvGatewayCall VoidPayment (gateway row)
                   (create_payment_information row (token auth) None false None)
              :: rest).
Proof.
  intros Ha Hf.
  change (void p) with (run_call (CallVoid p)).
  set (w1 := log (EvSelectForUpdate (pk p)) w).
  split.
  - intros Hl.
    apply (run_call_body_raises (CallVoid p) w row _ w1 Ha Hf).
    unfold call_body, void_body, bind, _get_past_transaction_token.
    rewrite last_successful_log, Hl. reflexivity.
  - intros auth Hl.
    destruct (fetch_then_rest VoidPayment
                (pm_void_payment get_plugins_manager) (gateway row)
                (create_payment_information row (token auth) None false None)
                (fun ra : option GatewayResponse * option string =>
                   let '(response, error_msg) := ra in
                   get_already_processed_transaction_or_create_new_transaction
                     row VOID
                     (create_payment_information row (token auth) None false None)
                     false response error_msg)
                w1) as [r2 [w2 [l [B [T _]]]]].
    { intros [response error_msg]. silent_steps. }
    eapply (reaches_gateway (CallVoid p)); try eassumption.
    unfold call_body, void_body.
    erewrite bind_ok
      by (unfold _get_past_transaction_token;
          rewrite last_successful_log, Hl; reflexivity).
    exact B.
Qed.

(** X15. [confirm] never fails on a missing prior Transaction: on an active
    payment whose row exists it always calls the gateway's confirm function,
    with the token of the most recent successful ACTION_TO_CONFIRM
    Transaction, or the empty token when there is none. *)
Theorem confirm_always_reaches_gateway p row a w :
  is_active p = true ->
  find_payment (pk p) w = Some row ->
  let tok := match last_successful (pk row) ACTION_TO_CONFIRM w with
             | Some t => token t
             | None => ""
             end in
  exists rest,
    trace (snd (confirm p a w))
    = trace w ++ EvSelectForUpdate (pk p)
        :: EvGatewayCall ConfirmPayment (gateway row)
             (create_payment_information row tok None false a) :: rest.
Proof.
  intros Ha Hf tok.
  change (confirm p a) with (run_call (CallConfirm p a)).
  set (w1 := log (EvSelectForUpdate (pk p)) w).
  destruct (fetch_then_rest ConfirmPayment
              (pm_confirm_payment get_plugins_manager) (gateway row)
              (create_payment_information row tok None false a)
              (fun ra : option GatewayResponse * option string =>
                 let '(response, error_msg) := ra in
                 bind (update_if_method_info row response)
                   (fun payment =>
                      get_already_processed_transaction_or_create_new_transaction
                        payment CONFIRM
                        (create_payment_information row tok None false a)
                        (response_action_required response) response error_msg))
              w1) as [r2 [w2 [l [B [T _]]]]].
  { intros [response error_msg]. silent_steps. }
  eapply (reaches_gateway (CallConfirm p a)); eassumption.
Qed.

(** X16. [refund] checks in a fixed order, on the reloaded row: the amount, then
    [can_refund], then the prior Transaction, whose kind is EXTERNAL for a
    manual payment and CAPTURE otherwise.  A payment that cannot be refunded
    and a payment without that prior Transaction fail before any gateway
    call; a gateway-backed payment that passes calls the gateway's refund
    function with the token of its most recent successful CAPTURE and the
    requested amount. *)
Theorem refund_check_order p row amount_arg w :
  is_active p = true ->
  find_payment (pk p) w = Some row ->
  fst (_validate_refund_amount row (amount_or amount_arg (captured_amount row)) w)
  = Ok tt ->
  let prior := if is_manual row then EXTERNAL else CAPTURE in
  let stopped := log (EvAtomicExit false) (log (EvSelectForUpdate (pk p)) w) in
  (can_refund row = false ->
   refund p amount_arg w
   = (Raise (PaymentError "This payment cannot be refunded."), stopped))
  /\ (can_refund row = true ->
      last_successful (pk row) prior w = None ->
      refund p amount_arg w
      = (Raise (PaymentError
                  ("Cannot find successful " ++ kind_value prior
                   ++ " transaction.")%string), stopped))
  /\ (can_refund row = true ->
      is_manual row = false ->
      forall cap,
        last_successful (pk row) CAPTURE w = Some cap ->
        exists rest,
          trace (snd (refund p amount_arg w))
          = trace w ++ EvSelectForUpdate (pk p)
              :: EvGatewayCall RefundPayment (gateway row)
                   (create_payment_information row (token cap)
                      (Some (amount_or amount_arg (captured_amount row)))
                      false None)
              :: rest).
Proof.
  intros Ha Hf Hv prior stopped.
  change (refund p amount_arg) with (run_call (CallRefund p amount_arg)).
  set (w1 := log (EvSelectForUpdate (pk p)) w).
  assert (Hpre : forall k : unit -> M G Transaction,
             bind (_validate_refund_amount row
                     (amount_or amount_arg (captured_amount row))) k w1
             = k tt w1).
  { intros k. apply bind_ok. apply (validate_refund_amount_ok _ _ w Hv). }
  split; [|split].
  - intros Hc.
    apply (run_call_body_raises (CallRefund p amount_arg) w row _ w1 Ha Hf).
    unfold call_body, refund_body.
    change (match amount_arg with None => captured_amount row | Some a => a end)
      with (amount_or amount_arg (captured_amount row)).
    rewrite Hpre, Hc. reflexivity.
  - intros Hc Hl.
    apply (run_call_body_raises (CallRefund p amount_arg) w row _ w1 Ha Hf).
    unfold call_body, refund_body.
    change (match amount_arg with None => captured_amount row | Some a => a end)
      with (amount_or amount_arg (captured_amount row)).
    rewrite Hpre, Hc. cbn [negb]. cbv iota.
    unfold bind, _get_past_transaction_token.
    fold prior. unfold w1. rewrite last_successful_log, Hl. reflexivity.
  - intros Hc Hm cap Hl.
    destruct (fetch_then_rest RefundPayment
                (pm_refund_payment get_plugins_manager) (gateway row)
                (create_payment_information row (token cap)
                   (Some (amount_or amount_arg (captured_amount row))) false None)
                (fun ra : option GatewayResponse * option string =>
                   let '(response, error_msg) := ra in
                   get_already_processed_transaction_or_create_new_transaction
                     row REFUND
                     (create_payment_information row (token cap)
                        (Some (amount_or amount_arg (captured_amount row)))
                        false None)
                     false response error_msg)
                w1) as [r2 [w2 [l [B [T _]]]]].
    { intros [response error_msg]. silent_steps. }
    eapply (reaches_gateway (CallRefund p amount_arg)); try eassumption.
    unfold call_body, refund_body.
    change (match amount_arg with None => captured_amount row | Some a => a end)
      with (amount_or amount_arg (captured_amount row)).
    rewrite Hpre, Hc, Hm. cbn [negb]. cbv iota.
    erewrite bind_ok
      by (unfold _get_past_transaction_token, w1;
          rewrite last_successful_log, Hl; reflexivity).
    exact B.
Qed.

(** X17. Default amounts are read from the reloaded row, not from the object the
    caller holds: [capture] without an amount is [capture] of the row's
    charge amount, [refund] without an amount is [refund] of the row's
    captured amount; and a [capture] whose amount [clean_capture] refuses
    raises that exception before the token lookup and the gateway. *)
Theorem default_amounts_come_from_row p row s w :
  find_payment (pk p) w = Some row ->
  capture p None s w = capture p (Some (get_charge_amount row)) s w
  /\ refund p None w = refund p (Some (captured_amount row)) w
  /\ (forall amount_arg e,
        is_active p = true ->
        clean_capture row (amount_or amount_arg (get_charge_amount row)) = Raise e ->
        capture p amount_arg s w
        = (Raise e, log (EvAtomicExit false) (log (EvSelectForUpdate (pk p)) w))).
Proof.
  intros Hf. split; [|split].
  - change (run_call (CallCapture p None s) w
            = run_call (CallCapture p (Some (get_charge_amount row)) s) w).
    rewrite !run_call_unfolded. unfold unfolded_call. simpl.
    rewrite Hf. reflexivity.
  - change (run_call (CallRefund p None) w
            = run_call (CallRefund p (Some (captured_amount row))) w).
    rewrite !run_call_unfolded. unfold unfolded_call. simpl.
    rewrite Hf. reflexivity.
  - intros amount_arg e Ha He.
    change (capture p amount_arg s) with (run_call (CallCapture p amount_arg s)).
    apply (run_call_body_raises (CallCapture p amount_arg s) w row e
             (log (EvSelectForUpdate (pk p)) w) Ha Hf).
    unfold call_body, capture_body.
    change (match amount_arg with None => get_charge_amount row | Some a => a end)
      with (amount_or amount_arg (get_charge_amount row)).
    unfold bind, lift. rewrite He. reflexivity.
Qed.

(** ** The Payment rows *)

Lemma keeps_payments_bind {A B} (m : M G A) (k : A -> M G B) :
  keeps_payments m -> (forall a, keeps_payments (k a)) -> keeps_payments (bind m k).
Proof.
  intros Hm Hk w r w' H. unfold bind in H.
  destruct (m w) as [[a|e] w1] eqn:E.
  - rewrite (Hk _ _ _ _ H). eapply Hm; exact E.
  - inversion H; subst. eapply Hm; exact E.
Qed.

Lemma keeps_payments_raise {A} (e : Exn) : keeps_payments (G := G) (A := A) (raise e).
Proof. intros w r w' H. inversion H; subst. reflexivity. Qed.

Lemma keeps_payments_get_past_transaction_token p k :
  keeps_payments (_get_past_transaction_token p k).
Proof.
  intros w r w' H. unfold _get_past_transaction_token in H.
  destruct (last_successful (pk p) k w); inversion H; subst; reflexivity.
Qed.

Lemma keeps_payments_validate_refund_amount p (a : Decimal) :
  keeps_payments (G := G) (_validate_refund_amount p a).
Proof.
  intros w r w' H. unfold _validate_refund_amount in H.
  destruct (Qle_bool a 0); [|destruct (negb (Qle_bool a (captured_amount p)))];
    inversion H; subst; reflexivity.
Qed.

Lemma keeps_payments_fetch op (fn : GatewayFn G) name data :
  keeps_payments (_fetch_gateway_response (call_gateway op fn) name data).
Proof.
  intros w r w'.
  unfold _fetch_gateway_response, bind, lift, ret, call_gateway.
  destruct (fn name data (gw w)) as [[resp|[m|m|n]] g'];
    [destruct (validate_gateway_response resp) as [u|[m|m|n]]|..];
    intros H; inversion H; subst; reflexivity.
Qed.

Lemma keeps_payments_create_transaction p k payment_information flag response
  error_msg ok :
  keeps_payments (G := G)
    (create_transaction p k payment_information flag response error_msg ok).
Proof. intros w r w' H. unfold create_transaction in H. inversion H; subst. reflexivity. Qed.

Lemma keeps_payments_idempotent_commit p k payment_information flag response
  error_msg :
  keeps_payments (G := G)
    (get_already_processed_transaction_or_create_new_transaction
       p k payment_information flag response error_msg).
Proof.
  intros w r w' H.
  unfold get_already_processed_transaction_or_create_new_transaction in H.
  destruct (last_opt _); [|unfold create_transaction in H];
    inversion H; subst; reflexivity.
Qed.

Lemma refund_body_keeps_payments p a : keeps_payments (refund_body p a).
Proof.
  unfold refund_body.
  apply keeps_payments_bind; [apply keeps_payments_validate_refund_amount | intros _].
  destruct (negb (can_refund p)); [apply keeps_payments_raise|].
  apply keeps_payments_bind;
    [apply keeps_payments_get_past_transaction_token | intros tok].
  destruct (is_manual p); [apply keeps_payments_create_transaction|].
  apply keeps_payments_bind;
    [unfold manager_refund_payment; apply keeps_payments_fetch | intros [? ?]].
  apply keeps_payments_idempotent_commit.
Qed.

Lemma void_body_keeps_payments p : keeps_payments (void_body p).
Proof.
  unfold void_body.
  apply keeps_payments_bind;
    [apply keeps_payments_get_past_transaction_token | intros tok].
  apply keeps_payments_bind;
    [unfold manager_void_payment; apply keeps_payments_fetch | intros [? ?]].
  apply keeps_payments_idempotent_commit.
Qed.

(** X18. [refund] and [void] never store payment-method details: they change
    Payment rows only through the post-processing hook, once, on the
    Transaction they return or on the unsuccessful one they raise for; a
    call that fails earlier leaves the Payment rows as they were. *)
Theorem refund_and_void_change_payments_only_by_hook c w r w' :
  gateway_op c = RefundPayment \/ gateway_op c = VoidPayment ->
  run_call c w = (r, w') ->
  match r with
  | Ok txn => payments w' = hooked txn (payments w)
  | Raise e =>
      payments w' = payments w
      \/ exists txn, is_success txn = false
                     /\ e = PaymentError (error_or_generic txn)
                     /\ payments w' = hooked txn (payments w)
  end.
Proof.
  intros Hop H.
  assert (Hk : forall row, keeps_payments (call_body c row)).
  { intros row. destruct c; simpl in Hop; destruct Hop as [Hop|Hop];
      try discriminate Hop; simpl.
    - apply refund_body_keeps_payments.
    - apply void_body_keeps_payments. }
  assert (Hcap : is_capture_call c = false).
  { destruct c; simpl in Hop; destruct Hop as [Hop|Hop];
      try discriminate Hop; reflexivity. }
  rewrite run_call_unfolded in H. unfold unfolded_call in H. rewrite Hcap in H.
  destruct (is_active (call_payment c)).
  - destruct (find_payment _ w) as [row|].
    + destruct (call_body c row _) as [[txn|e] w2] eqn:E;
        pose proof (Hk row _ _ _ E) as P; simpl in P.
      * destruct (is_success txn) eqn:S; inversion H; subst; clear H; simpl.
        -- unfold hooked. rewrite P. reflexivity.
        -- right. exists txn. repeat split; [exact S|].
           unfold hooked. rewrite P. reflexivity.
      * inversion H; subst. left. reflexivity.
    + inversion H; subst. left. reflexivity.
  - inversion H; subst. left. reflexivity.
Qed.

End Properties.

(** ** The claims on concrete runs *)

(** [capture] twice with the same gateway token: the second call returns the
    row of the first and the table does not grow. *)
Lemma capture_twice_reuses_row :
  exists txn w2,
    capture stripe_payment None false captured_world = (Ok txn, w2)
    /\ In txn (transactions captured_world)
    /\ transactions w2 = transactions captured_world.
Proof.
  do 2 eexists. split; [vm_compute; reflexivity|].
  apply (idempotent_commit_reuses_row (env := demo_env)
           (CallCapture stripe_payment None false) captured_world).
  - reflexivity.
  - vm_compute. reflexivity.
  - eexists. split; [right; left; reflexivity | vm_compute; reflexivity].
Defined.

(** A second refund of a manual payment inserts a second successful REFUND
    row with the same token. *)
Lemma manual_refund_inserts_duplicate :
  ~ reuses_existing_row (env := demo_env)
      (CallRefund manual_payment (Some 10%Q)) refunded_world.
Proof.
  intros H.
  destruct (H _ _ eq_refl) as [_ R].
  - eexists. split; [right; left; reflexivity | vm_compute; reflexivity].
  - vm_compute in R. discriminate R.
Qed.

(** An authorization the gateway approves is returned; one it declines is
    not: its (absent) message is replaced by the generic one. *)
Lemma authorize_returns_or_raises :
  fst (authorize stripe_payment "card-token" false
         (demo_world [stripe_payment] []))
  = Ok (mkTransaction 1 1 AUTH "gw-1" true false 100%Q None "{}")
  /\ fst (authorize declined_payment "card-token" false
            (demo_world [declined_payment] []))
     = Raise (PaymentError "Transaction was unsuccessful.").
Proof.
  split.
  - apply (proj1 (proj2 (success_or_error (env := demo_env)
                           (CallAuthorize stripe_payment "card-token" false)
                           (demo_world [stripe_payment] [])))
             stripe_payment
             (mkTransaction 1 1 AUTH "gw-1" true false 100%Q None "{}")
             _ eq_refl eq_refl eq_refl).
  - apply (proj1 (proj2 (success_or_error (env := demo_env)
                           (CallAuthorize declined_payment "card-token" false)
                           (demo_world [declined_payment] [])))
             declined_payment
             (mkTransaction 1 1 AUTH "gw-1" false false 100%Q None "{}")
             _ eq_refl eq_refl eq_refl).
Defined.

(** Calls that raise something else than a Transaction's message: a refund
    through an inactive object raises the guard's own message while the only
    Transaction in the table has none; a payment processed through a plugin
    that fails with its own exception raises that exception and no
    Transaction exists. *)
Lemma success_or_error_counterexample :
  ~ returns_success_or_transaction_error (env := demo_env)
      (CallRefund inactive_payment None) authorized_world
  /\ ~ returns_success_or_transaction_error (env := demo_env)
         (CallProcessPayment stripe_payment "card-token" false None
            (Some crashing_manager))
         (demo_world [stripe_payment] []).
Proof.
  split; intros H; vm_compute in H; destruct H as [txn [Hin He]].
  - destruct Hin as [<-|[]]. discriminate He.
  - destruct Hin.
Qed.

(** A refund on an inactive payment object changes nothing. *)
Lemma inactive_refund_rejected :
  refund inactive_payment None authorized_world
  = (Raise (PaymentError "This payment is no longer active."), authorized_world).
Proof.
  apply (proj1 (inactive_guard (env := demo_env)
                  (CallRefund inactive_payment None) authorized_world eq_refl)).
Defined.

(** The caller's object says active, the stored row says inactive: the
    authorization goes through.  The caller's object says inactive, the
    stored row says active: the call fails and no lock was taken. *)
Lemma activity_check_reads_caller_object :
  ~ checks_activity_of_reloaded_row (env := demo_env)
      (CallAuthorize stripe_payment "card-token" false)
      (demo_world [inactive_payment] [])
  /\ ~ locks_before_activity_check (env := demo_env)
         (CallAuthorize inactive_payment "card-token" false)
         (demo_world [stripe_payment] []).
Proof.
  split.
  - intros H. specialize (H inactive_payment eq_refl eq_refl).
    vm_compute in H. discriminate H.
  - intros H. specialize (H eq_refl). vm_compute in H. discriminate H.
Qed.

(** A void through an inactive object stops before the lock; through an
    active one it starts by taking it. *)
Lemma void_checks_then_locks :
  void inactive_payment authorized_world
  = (Raise (PaymentError "This payment is no longer active."), authorized_world)
  /\ exists rest,
       trace (snd (void stripe_payment authorized_world))
       = trace authorized_world ++ EvSelectForUpdate 1 :: rest.
Proof.
  split.
  - apply (proj1 (activity_check_precedes_lock (env := demo_env)
                    (CallVoid inactive_payment) authorized_world) eq_refl).
  - apply (proj1 (proj2 (activity_check_precedes_lock (env := demo_env)
                           (CallVoid stripe_payment) authorized_world)) eq_refl).
Defined.

(** A gateway that raises with an address in its message is seen as the
    fixed string only. *)
Lemma broken_gateway_is_normalized :
  fst (_fetch_gateway_response (manager_authorize_payment demo_manager) "broken"
         (create_payment_information broken_payment "card-token" None false None)
         (demo_world [broken_payment] []))
  = Ok (None, Some "Oops! Something went wrong.").
Proof.
  eapply (proj1 (proj2 (fetch_gateway_response_boundary (env := demo_env)
                         (manager_authorize_payment demo_manager) "broken"
                         (create_payment_information broken_payment "card-token"
                            None false None)
                         (demo_world [broken_payment] [])))
           "connection reset by peer 10.0.0.7" _).
  left. vm_compute. reflexivity.
Defined.

(** With nothing captured, the captured amount itself is refused. *)
Lemma zero_capture_full_refund_refused :
  ~ full_refund_passes_validation stripe_payment (demo_world [stripe_payment] [])
  /\ fst (refund stripe_payment (Some (captured_amount stripe_payment))
            (demo_world [stripe_payment] []))
     = Raise (PaymentError "Amount should be a positive number.").
Proof.
  split.
  - intros H. vm_compute in H. discriminate H.
  - vm_compute. reflexivity.
Qed.

(** With 100 captured: 0 and 101 are refused, 100 passes. *)
Lemma refund_bounds_at_100 :
  _validate_refund_amount charged_payment 0%Q (demo_world [charged_payment] [])
  = (Raise (PaymentError "Amount should be a positive number."),
     demo_world [charged_payment] [])
  /\ (exists e, InvalidAmountError e
                /\ _validate_refund_amount charged_payment 101%Q
                     (demo_world [charged_payment] [])
                   = (Raise e, demo_world [charged_payment] []))
  /\ _validate_refund_amount charged_payment (captured_amount charged_payment)
       (demo_world [charged_payment] [])
     = (Ok tt, demo_world [charged_payment] []).
Proof.
  split; [|split].
  - apply (proj1 (refund_amount_bounds (env := demo_env) charged_payment 0%Q
                    (demo_world [charged_payment] []))).
    vm_compute. discriminate.
  - apply (proj1 (proj2 (refund_amount_bounds (env := demo_env) charged_payment
                           101%Q (demo_world [charged_payment] [])))).
    vm_compute. reflexivity.
  - apply (proj1 (proj2 (proj2 (refund_amount_bounds (env := demo_env)
                                  charged_payment 100%Q
                                  (demo_world [charged_payment] []))))).
    vm_compute. reflexivity.
Defined.


(** The refund of a manual payment: one new successful REFUND row, no
    gateway call. *)
Lemma manual_refund_runs :
  exists txn w',
    refund manual_payment (Some 10%Q) manual_world = (Ok txn, w')
    /\ kind txn = REFUND /\ is_success txn = true
    /\ payment_id txn = 2 /\ token txn = "ext-1"
    /\ transactions w' = transactions manual_world ++ [txn]
    /\ trace w' = [EvSelectForUpdate 2; EvPostprocess txn; EvAtomicExit true]
    /\ gateway_calls (trace w') = []
    /\ gw w' = 0.
Proof.
  apply (manual_refund_skips_gateway (env := demo_env)
           manual_payment manual_payment (Some 10%Q) manual_world
           (demo_txn 1 2 EXTERNAL "ext-1")
           eq_refl eq_refl eq_refl eq_refl eq_refl eq_refl).
Defined.

(** [process_payment] runs the hook once per call, not twice; [capture]
    runs it twice, not once. *)
Lemma hook_multiplicity_counterexample :
  ~ hook_multiplicity_claim (env := demo_env)
      (CallProcessPayment stripe_payment "card-token" false None None)
      (demo_world [stripe_payment] [])
  /\ ~ hook_multiplicity_claim (env := demo_env)
         (CallCapture stripe_payment None false) authorized_world.
Proof.
  split; intros H; specialize (H _ _ eq_refl); vm_compute in H; discriminate H.
Qed.

(** One [process_payment]: the hook ran once, on the returned row. *)
Lemma process_payment_runs_hook_once :
  postprocess_runs
    (trace (snd (process_payment stripe_payment "card-token" false None None
                   (demo_world [stripe_payment] []))))
  = [EvPostprocess (mkTransaction 1 1 CAPTURE "gw-1" true false 100%Q None "{}")].
Proof.
  apply (hook_runs_once_per_commit (env := demo_env)
           (CallProcessPayment stripe_payment "card-token" false None None)
           (demo_world [stripe_payment] [])
           (Ok (mkTransaction 1 1 CAPTURE "gw-1" true false 100%Q None "{}"))
           _ eq_refl eq_refl).
Defined.

(** A declined authorization: the hook ran on the failed row and the atomic
    block committed before the error was raised. *)
Lemma declined_authorize_postprocessed :
  exists w',
    authorize declined_payment "card-token" false (demo_world [declined_payment] [])
    = (Raise (PaymentError "Transaction was unsuccessful."), w')
    /\ trace w'
       = [EvSelectForUpdate 1;
          EvGatewayCall AuthorizePayment "declined"
            (mkPaymentData 1 "card-token" 100%Q false None)]
         ++ [EvPostprocess
               (mkTransaction 1 1 AUTH "gw-1" false false 100%Q None "{}");
             EvAtomicExit true]
    /\ payments w' = [declined_payment]
    /\ transactions w'
       = [mkTransaction 1 1 AUTH "gw-1" false false 100%Q None "{}"].
Proof.
  apply (postprocess_before_error (env := demo_env)
           (CallAuthorize declined_payment "card-token" false)
           (demo_world [declined_payment] []) declined_payment
           (mkTransaction 1 1 AUTH "gw-1" false false 100%Q None "{}")
           _ eq_refl eq_refl eq_refl eq_refl).
Defined.

(** ** Further concrete runs *)

(** A void on the authorized payment: one lock, one exit from the block. *)
Lemma void_locks_once :
  lock_acquisitions (trace (snd (void stripe_payment authorized_world)))
  = lock_acquisitions (trace authorized_world) ++ [EvSelectForUpdate 1]
  /\ exists b,
       atomic_exits (trace (snd (void stripe_payment authorized_world)))
       = atomic_exits (trace authorized_world) ++ [EvAtomicExit b]
       /\ (b = false ->
           payments (snd (void stripe_payment authorized_world))
           = payments authorized_world
           /\ transactions (snd (void stripe_payment authorized_world))
              = transactions authorized_world
           /\ exists e, fst (void stripe_payment authorized_world) = Raise e).
Proof.
  exact (lock_discipline (env := demo_env) (CallVoid stripe_payment) authorized_world).
Defined.

(** A call on a payment whose row is gone fails with an exception that is
    not a payment error, and leaves the rows alone. *)
Lemma missing_row_leaves_rows :
  payments (snd (authorize stripe_payment "card-token" false (demo_world [] [])))
  = []
  /\ transactions (snd (authorize stripe_payment "card-token" false (demo_world [] [])))
     = [].
Proof.
  apply (proj2 (failure_atomicity (env := demo_env)
                  (CallAuthorize stripe_payment "card-token" false)
                  (demo_world [] []) _ _ eq_refl)).
  intros msg. discriminate.
Defined.

Lemma missing_row_run :
  authorize stripe_payment "card-token" false (demo_world [] [])
  = (Raise (OtherException "Payment.DoesNotExist"),
     mkWorld [] [] 0 [EvSelectForUpdate 1; EvAtomicExit false]).
Proof.
  apply (missing_row_raises (env := demo_env)
           (CallAuthorize stripe_payment "card-token" false) (demo_world [] [])
           eq_refl eq_refl).
Defined.

(** One capture of the authorized payment: the hook runs inside the block
    and again after it. *)
Lemma capture_hook_runs :
  exists w',
    capture stripe_payment None false authorized_world
    = (Ok (mkTransaction 2 1 CAPTURE "gw-1" true false (100 - 0)%Q None "{}"), w')
    /\ gateway_calls (trace w')
       = [EvGatewayCall CapturePayment "stripe"
            (mkPaymentData 1 "auth-1" (100 - 0)%Q false None)]
    /\ postprocess_runs (trace w')
       = [EvPostprocess
            (mkTransaction 2 1 CAPTURE "gw-1" true false (100 - 0)%Q None "{}");
          EvPostprocess
            (mkTransaction 2 1 CAPTURE "gw-1" true false (100 - 0)%Q None "{}")].
Proof.
  destruct (capture_hook_multiplicity (env := demo_env)
              stripe_payment stripe_payment None false authorized_world
              (mkTransaction 2 1 CAPTURE "gw-1" true false (100 - 0)%Q None "{}")
              _ eq_refl eq_refl eq_refl) as [w' [E [T _]]].
  exists w'. split; [exact E|]. rewrite T. split; reflexivity.
Defined.

(** The token of the authorization is found; a capture token is not. *)
Lemma past_token_of_authorized_world :
  (exists t, In t (transactions authorized_world) /\ payment_id t = 1
             /\ kind t = AUTH /\ is_success t = true /\ token t = "auth-1")
  /\ forall t, In t (transactions authorized_world) ->
               payment_id t = 1 -> kind t = CAPTURE -> is_success t = false.
Proof.
  split.
  - apply (proj1 (past_transaction_token_sound_and_complete (env := demo_env)
                    stripe_payment AUTH authorized_world)
             "auth-1" authorized_world eq_refl).
  - apply (proj2 (past_transaction_token_sound_and_complete (env := demo_env)
                    stripe_payment CAPTURE authorized_world)
             _ authorized_world eq_refl).
Defined.

(** The broken gateway: one call, one log entry, the generic error. *)
Lemma broken_gateway_is_logged :
  exists logs,
    trace (snd (_fetch_gateway_response
                  (call_gateway AuthorizePayment demo_gateway_fn) "broken"
                  (mkPaymentData 1 "card-token" 100%Q false None)
                  (demo_world [broken_payment] [])))
    = EvGatewayCall AuthorizePayment "broken"
        (mkPaymentData 1 "card-token" 100%Q false None) :: logs
    /\ (ERROR_MSG = ERROR_MSG /\ exists text, logs = [EvLog text]).
Proof.
  exact (proj2 (proj2 (fetch_logs_exactly_the_failures (env := demo_env)
                         AuthorizePayment demo_gateway_fn "broken"
                         (mkPaymentData 1 "card-token" 100%Q false None)
                         (demo_world [broken_payment] []) _ _ eq_refl))).
Defined.

(** Nothing to refund and nothing to void: nothing happens. *)
Lemma refund_or_void_of_inactive_payment :
  payment_refund_or_void (Some inactive_payment) authorized_world
  = (Ok tt, authorized_world).
Proof.
  apply (proj2 (refund_or_void_noop (env := demo_env) authorized_world)
           inactive_payment eq_refl eq_refl).
Defined.

(** A captured, gateway-backed payment is refunded, not voided. *)
Lemma refund_or_void_refunds :
  exists l,
    gateway_calls
      (trace (snd (payment_refund_or_void (Some charged_payment)
                     (demo_world [charged_payment] [demo_txn 1 1 CAPTURE "cap-1"]))))
    = [] ++ l
    /\ forall ev, In ev l -> exists name d, ev = EvGatewayCall RefundPayment name d.
Proof.
  apply (proj2 (proj1 (refund_or_void_dispatch (env := demo_env) charged_payment
                         (demo_world [charged_payment]
                            [demo_txn 1 1 CAPTURE "cap-1"]))
                  eq_refl)).
Defined.

Lemma process_payment_run :
  (exists rest,
     trace (snd (process_payment stripe_payment "card-token" true (Some "3ds")
                   (Some demo_manager) (demo_world [stripe_payment] [])))
     = [] ++ EvSelectForUpdate 1
         :: EvGatewayCall ProcessPayment "stripe"
              (mkPaymentData 1 "card-token" 100%Q true (Some "3ds")) :: rest)
  /\ gw (snd (process_payment stripe_payment "card-token" true (Some "3ds")
                (Some demo_manager) (demo_world [stripe_payment] [])))
     = 1.
Proof.
  exact (process_payment_reaches_gateway (env := demo_env)
           stripe_payment stripe_payment "card-token" true (Some "3ds")
           (Some demo_manager) (demo_world [stripe_payment] []) eq_refl eq_refl).
Defined.

Lemma authorize_run :
  exists rest,
    trace (snd (authorize stripe_payment "card-token" false
                  (demo_world [stripe_payment] [])))
    = [] ++ EvSelectForUpdate 1
        :: EvGatewayCall AuthorizePayment "stripe"
             (mkPaymentData 1 "card-token" 100%Q false None) :: rest.
Proof.
  exact (proj2 (authorize_clean_check_precedes_gateway (env := demo_env)
                  stripe_payment stripe_payment "card-token" false
                  (demo_world [stripe_payment] []) eq_refl eq_refl)
           eq_refl).
Defined.

Lemma void_run :
  void stripe_payment (demo_world [stripe_payment] [])
  = (Raise (PaymentError "Cannot find successful AUTH transaction."),
     mkWorld [stripe_payment] [] 0 [EvSelectForUpdate 1; EvAtomicExit false])
  /\ exists rest,
       trace (snd (void stripe_payment authorized_world))
       = [] ++ EvSelectForUpdate 1
           :: EvGatewayCall VoidPayment "stripe"
                (mkPaymentData 1 "auth-1" 100%Q false None) :: rest.
Proof.
  split.
  - exact (proj1 (void_precondition_chaining (env := demo_env)
                    stripe_payment stripe_payment
                    (demo_world [stripe_payment] []) eq_refl eq_refl)
             eq_refl).
  - exact (proj2 (void_precondition_chaining (env := demo_env)
                    stripe_payment stripe_payment authorized_world
                    eq_refl eq_refl)
             (demo_txn 1 1 AUTH "auth-1") eq_refl).
Defined.

Lemma confirm_run :
  exists rest,
    trace (snd (confirm stripe_payment None authorized_world))
    = [] ++ EvSelectForUpdate 1
        :: EvGatewayCall ConfirmPayment "stripe"
             (mkPaymentData 1 "" 100%Q false None) :: rest.
Proof.
  exact (confirm_always_reaches_gateway (env := demo_env)
           stripe_payment stripe_payment None authorized_world eq_refl eq_refl).
Defined.

Lemma refund_run :
  refund stripe_payment (Some 10%Q) (demo_world [charged_payment] [])
  = (Raise (PaymentError "Cannot find successful CAPTURE transaction."),
     mkWorld [charged_payment] [] 0 [EvSelectForUpdate 1; EvAtomicExit false])
  /\ exists rest,
       trace (snd (refund stripe_payment (Some 10%Q)
                     (demo_world [charged_payment] [demo_txn 1 1 CAPTURE "cap-1"])))
       = [] ++ EvSelectForUpdate 1
           :: EvGatewayCall RefundPayment "stripe"
                (mkPaymentData 1 "cap-1" 10%Q false None) :: rest.
Proof.
  split.
  - exact (proj1 (proj2 (refund_check_order (env := demo_env)
                           stripe_payment charged_payment (Some 10%Q)
                           (demo_world [charged_payment] [])
                           eq_refl eq_refl eq_refl))
             eq_refl eq_refl).
  - exact (proj2 (proj2 (refund_check_order (env := demo_env)
                           stripe_payment charged_payment (Some 10%Q)
                           (demo_world [charged_payment]
                              [demo_txn 1 1 CAPTURE "cap-1"])
                           eq_refl eq_refl eq_refl))
             eq_refl eq_refl (demo_txn 1 1 CAPTURE "cap-1") eq_refl).
Defined.

(** The caller holds a stale object (nothing captured); the row says 100
    captured: the default refund is a refund of 100. *)
Lemma default_refund_uses_row :
  refund stripe_payment None
    (demo_world [charged_payment] [demo_txn 1 1 CAPTURE "cap-1"])
  = refund stripe_payment (Some 100%Q)
      (demo_world [charged_payment] [demo_txn 1 1 CAPTURE "cap-1"]).
Proof.
  exact (proj1 (proj2 (default_amounts_come_from_row (env := demo_env)
                         stripe_payment charged_payment false
                         (demo_world [charged_payment]
                            [demo_txn 1 1 CAPTURE "cap-1"])
                         eq_refl))).
Defined.

(** The manual refund changes the payment row by the hook alone. *)
Lemma manual_refund_changes_row_by_hook :
  payments refunded_world
  = hooked (env := demo_env)
      (mkTransaction 2 2 REFUND "ext-1" true false 10%Q None "")
      [manual_payment].
Proof.
  exact (refund_and_void_change_payments_only_by_hook (env := demo_env)
           (CallRefund manual_payment (Some 10%Q)) manual_world
           (Ok (mkTransaction 2 2 REFUND "ext-1" true false 10%Q None ""))
           refunded_world (or_introl eq_refl) eq_refl).
Defined.
